(** * image-manager: the curation engine (app.py) and the grade-10
      classifier (app2.py), embedded in Rocq.

    Both programs are Streamlit scripts that keep their state in
    [st.session_state] and act on the file system.  The embedding makes that
    state explicit: every function of the source becomes a function on a
    world record (session state plus the part of the file system it touches)
    that returns the new world together with either a result or the Python
    exception that escaped. *)

From Stdlib Require Import ZArith NArith Ascii String List Bool Lia.
From stdpp Require Import base option list gmap strings fin_maps fin_sets sorting pretty.

Local Open Scope string_scope.
Local Open Scope list_scope.
Local Open Scope stdpp_scope.

(** ** Python values, exceptions and results *)

(** The exceptions that the modelled code can raise. *)
Inductive Exn : Type :=
  | FileNotFoundError (path : string)
  | FileExistsError (path : string)
  | IsADirectoryError (path : string)
  | JSONDecodeError
  | IndexError
  | TypeError.

(** Outcome of a call: a returned value or an exception that propagated out
    of it.  The world a call leaves behind is returned next to the outcome,
    since Python keeps every mutation made before the exception. *)
Inductive Res (A : Type) : Type :=
  | Ok (a : A)
  | Raise (e : Exn).
Arguments Ok {A} a.
Arguments Raise {A} e.

Definition is_ok {A} (r : Res A) : bool :=
  match r with Ok _ => true | Raise _ => false end.

(** State-and-exception monad over a world [W]. *)
Definition M (W A : Type) : Type := W -> W * Res A.

Definition ret {W A} (a : A) : M W A := fun w => (w, Ok a).
Definition raise {W A} (e : Exn) : M W A := fun w => (w, Raise e).
Definition bind {W A B} (m : M W A) (k : A -> M W B) : M W B :=
  fun w => match m w with
           | (w', Ok a) => k a w'
           | (w', Raise e) => (w', Raise e)
           end.
Definition get {W} : M W W := fun w => (w, Ok w).
Definition modify {W} (f : W -> W) : M W unit := fun w => (f w, Ok tt).
(** [try: body except Exception as e: handler e]. *)
Definition try_except {W A} (body : M W A) (handler : Exn -> M W A) : M W A :=
  fun w => match body w with
           | (w', Ok a) => (w', Ok a)
           | (w', Raise e) => handler e w'
           end.
(** Lift a fallible pure step. *)
Definition lift {W A} (r : Res A) : M W A := fun w => (w, r).

Declare Scope py_scope.
Delimit Scope py_scope with py.
Notation "x <- m ;; k" := (bind m (fun x => k))
  (at level 100, m at next level, right associativity) : py_scope.
Notation "m ;;; k" := (bind m (fun _ => k))
  (at level 100, right associativity) : py_scope.

(** Python sequence indexing [l[i]]: a negative index counts from the end,
    an index outside [-len, len) raises [IndexError]. *)
Definition py_norm (len : nat) (i : Z) : option nat :=
  if (0 <=? i)%Z then
    if (i <? Z.of_nat len)%Z then Some (Z.to_nat i) else None
  else
    if (- Z.of_nat len <=? i)%Z then Some (Z.to_nat (Z.of_nat len + i)) else None.

Definition py_getitem {A} (l : list A) (i : Z) : Res A :=
  match py_norm (length l) i with
  | Some n => match l !! n with Some x => Ok x | None => Raise IndexError end
  | None => Raise IndexError
  end.

(** [l[i] = x]. *)
Definition py_setitem {A} (l : list A) (i : Z) (x : A) : Res (list A) :=
  match py_norm (length l) i with
  | Some n => Ok (<[n := x]> l)
  | None => Raise IndexError
  end.

(** [l.pop(i)], returning the list that remains. *)
Definition py_pop {A} (l : list A) (i : Z) : Res (list A) :=
  match py_norm (length l) i with
  | Some n => Ok (take n l ++ drop (S n) l)
  | None => Raise IndexError
  end.

(** JSON scalars as Python holds them after [json.load].  A float is kept as
    its IEEE-754 binary64 bit pattern. *)
Inductive PyVal : Type :=
  | PNone
  | PBool (b : bool)
  | PInt (z : Z)
  | PFloat (bits : Z)
  | PStr (s : string).

(** A binary64 is zero when every bit but the sign bit is clear. *)
Definition float_is_zero (bits : Z) : bool :=
  (Z.land bits (2 ^ 63 - 1) =? 0)%Z.

(** Python truthiness, as used by [if x], [not x] and [x and y]. *)
Definition truthy (v : PyVal) : bool :=
  match v with
  | PNone => false
  | PBool b => b
  | PInt z => negb (z =? 0)%Z
  | PFloat bits => negb (float_is_zero bits)
  | PStr s => negb (String.eqb s "")
  end.

(** ** Character classes and string helpers *)

Definition code (c : ascii) : N := N_of_ascii c.

Definition in_range (lo hi : N) (c : ascii) : bool :=
  ((lo <=? code c) && (code c <=? hi))%N.

Definition is_digit : ascii -> bool := in_range 48 57.
Definition is_lower : ascii -> bool := in_range 97 122.
Definition is_upper : ascii -> bool := in_range 65 90.
Definition is_alpha (c : ascii) : bool := is_lower c || is_upper c.

Definition to_lower (c : ascii) : ascii :=
  if is_upper c then ascii_of_N (code c + 32) else c.
Definition to_upper (c : ascii) : ascii :=
  if is_lower c then ascii_of_N (code c - 32) else c.

Fixpoint lower (s : string) : string :=
  match s with
  | EmptyString => EmptyString
  | String c r => String (to_lower c) (lower r)
  end.

Fixpoint all_chars (p : ascii -> bool) (s : string) : bool :=
  match s with
  | EmptyString => true
  | String c r => p c && all_chars p r
  end.

(** [str.isascii]: every character is below U+0080. *)
Definition is_ascii (s : string) : bool :=
  all_chars (fun c => (code c <? 128)%N) s.

Fixpoint count_chars (p : ascii -> bool) (s : string) : nat :=
  match s with
  | EmptyString => 0
  | String c r => (if p c then 1 else 0) + count_chars p r
  end.

Definition is_dot (c : ascii) : bool := Ascii.eqb c ".".
Definition is_underscore (c : ascii) : bool := Ascii.eqb c "_".
Definition newline : ascii := ascii_of_N 10.

(** Longest prefix of [s] made of characters in class [p], and the rest. *)
Fixpoint span (p : ascii -> bool) (s : string) : string * string :=
  match s with
  | EmptyString => (EmptyString, EmptyString)
  | String c r =>
      if p c then let '(a, b) := span p r in (String c a, b)
      else (EmptyString, s)
  end.

(** A greedy [[class]+]: at least one character. *)
Definition take_plus (p : ascii -> bool) (s : string) : option (string * string) :=
  match span p s with
  | (EmptyString, _) => None
  | (a, b) => Some (a, b)
  end.

(** One literal character. *)
Definition expect (c : ascii) (s : string) : option string :=
  match s with
  | String c' r => if Ascii.eqb c' c then Some r else None
  | EmptyString => None
  end.

(** A lower-case literal matched without regard to case; returns the text
    that was matched and the rest. *)
Fixpoint take_literal (lit s : string) : option (string * string) :=
  match lit with
  | EmptyString => Some (EmptyString, s)
  | String a lit' =>
      match s with
      | String c r =>
          if Ascii.eqb (to_lower c) a then
            match take_literal lit' r with
            | Some (m, rest) => Some (String c m, rest)
            | None => None
            end
          else None
      | EmptyString => None
      end
  end.

(** [Path.suffix]: the part of the name from its last dot on, empty when the
    last dot is the first or the last character or when there is none. *)
Fixpoint last_dot_tail (s : string) : option string :=
  match s with
  | EmptyString => None
  | String c r =>
      match last_dot_tail r with
      | Some t => Some t
      | None => if is_dot c then Some s else None
      end
  end.

Definition suffix (nm : string) : string :=
  match nm with
  | EmptyString => EmptyString
  | String _ r =>
      match last_dot_tail r with
      | Some t => if (1 <? String.length t)%nat then t else EmptyString
      | None => EmptyString
      end
  end.

(** The last component of a path. *)
Fixpoint basename (path : string) : string :=
  match path with
  | EmptyString => EmptyString
  | String c r =>
      if existsb (Ascii.eqb "/") (list_ascii_of_string r) then basename r
      else if Ascii.eqb c "/" then r else path
  end.

(** [os.path.join] on a POSIX system. *)
Definition ends_with_slash (a : string) : bool :=
  match last (list_ascii_of_string a) with
  | Some c => Ascii.eqb c "/"
  | None => false
  end.

Definition path_join (a b : string) : string :=
  match b with
  | String "/" _ => b
  | _ => if String.eqb a "" || ends_with_slash a then a +:+ b
         else a +:+ "/" +:+ b
  end.

(** ** The grade-10 classifier (app2.py) *)

Module Classifier.

(** *** Filename parsing *)

(** The character classes of the pattern
    [^([\d.]+)_([a-f0-9]+)_(front|back)\.(\w+)$], on ASCII characters: there
    [\d] is [0-9] and [\w] is [A-Za-z0-9_].  On a [str] pattern Python's
    [\d] and [\w] also take the digits and word characters of other
    scripts, and [re.IGNORECASE] lets U+212A match [k]; these classes leave
    such characters out, so the parser below is the source's on the names
    for which [is_ascii] holds. *)
Definition cls_grade (c : ascii) : bool := is_digit c || is_dot c.
Definition cls_hex (c : ascii) : bool := is_digit c || in_range 97 102 c.
Definition cls_word (c : ascii) : bool := is_alpha c || is_digit c || is_underscore c.

(** [re.IGNORECASE] on a character class: a character matches when it or
    its other-case form is in the class. *)
Definition ignorecase (p : ascii -> bool) (c : ascii) : bool :=
  p c || p (to_lower c) || p (to_upper c).

(** [(front|back)] under [re.IGNORECASE]. *)
Definition take_side (s : string) : option (string * string) :=
  match take_literal "front" s with
  | Some r => Some r
  | None => take_literal "back" s
  end.

(** [$] without [re.MULTILINE]: the end of the string, or just before a
    newline that ends the string. *)
Definition at_end (s : string) : bool :=
  match s with
  | EmptyString => true
  | String c EmptyString => Ascii.eqb c newline
  | _ => false
  end.

(** [parse_filename]: [Some (grade, unique_id, side, extension)] when the
    pattern matches, [None] for the source's [(None, None, None, None)].
    The pattern is matched left to right; no choice point of the regular
    expression needs backtracking, because the character after each
    [+]-group ([_], [_], end of string) is outside the group's class, and
    [front] and [back] start with different letters.  It is the source's
    function on ASCII filenames (see the character classes above). *)
Definition parse_filename (filename : string)
  : option (string * string * string * string) :=
  '(grade, r1) ← take_plus (ignorecase cls_grade) filename;
  r2 ← expect "_" r1;
  '(unique_id, r3) ← take_plus (ignorecase cls_hex) r2;
  r4 ← expect "_" r3;
  '(side, r5) ← take_side r4;
  r6 ← expect "." r5;
  '(extension, r7) ← take_plus (ignorecase cls_word) r6;
  if at_end r7 then Some (grade, unique_id, lower side, extension) else None.

(** The language of the pattern, read off the regular expression: grade,
    separator, identifier, separator, side, dot, extension, and what [$]
    allows after them. *)
Definition matches_pattern (filename g u s e : string) : Prop :=
  exists side tail,
    filename = g +:+ "_" +:+ u +:+ "_" +:+ side +:+ "." +:+ e +:+ tail /\
    g <> "" /\ all_chars cls_grade g = true /\
    u <> "" /\ all_chars (ignorecase cls_hex) u = true /\
    (lower side = "front" \/ lower side = "back") /\ s = lower side /\
    e <> "" /\ all_chars cls_word e = true /\
    (tail = "" \/ tail = String newline "").

(** The grammar in the words of the specification: one or more digits with
    at most one decimal point, one or more lower-case hex characters,
    [front] or [back] in any case, and the letters of the extension. *)
Definition spec_grade (g : string) : bool :=
  all_chars cls_grade g && (1 <=? count_chars is_digit g)%nat
  && (count_chars is_dot g <=? 1)%nat.

Definition spec_form (filename : string) : Prop :=
  exists g u side e,
    filename = g +:+ "_" +:+ u +:+ "_" +:+ side +:+ "." +:+ e /\
    spec_grade g = true /\
    u <> "" /\ all_chars cls_hex u = true /\
    (lower side = "front" \/ lower side = "back") /\
    e <> "" /\ all_chars is_alpha e = true.

(** *** Grade filter *)

(** Value of the digits of [s], dots skipped. *)
Fixpoint digits_value (acc : N) (s : string) : N :=
  match s with
  | EmptyString => acc
  | String c r =>
      if is_digit c then digits_value (10 * acc + (code c - 48)) r
      else digits_value acc r
  end.

(** Number of characters after the first dot. *)
Fixpoint frac_len (s : string) : nat :=
  match s with
  | EmptyString => 0
  | String c r => if is_dot c then String.length r else frac_len r
  end.

(** [float(grade_str) == 10.0] for a string of digits and dots, which is
    what [parse_filename] hands over.  [float] accepts such a string when it
    has at least one digit and at most one dot, and rounds its value
    [n / 10^k] to the nearest binary64, ties to even.  The binary64
    neighbours of 10 are [10 - 2^-49] and [10 + 2^-49] and the significand of
    10 is even, so the result is 10.0 exactly when [|n / 10^k - 10| <= 2^-50].
    Any other string makes [float] raise, and the bare [except] returns
    [False]. *)
Definition is_grade_10 (grade_str : string) : bool :=
  if all_chars cls_grade grade_str
     && (1 <=? count_chars is_digit grade_str)%nat
     && (count_chars is_dot grade_str <=? 1)%nat
  then
    let n := Z.of_N (digits_value 0 grade_str) in
    let p := (10 ^ Z.of_nat (frac_len grade_str))%Z in
    (Z.abs (n - 10 * p) * 2 ^ 50 <=? p)%Z
  else false.

(** *** Directory scan *)

(** What [directory.iterdir()] yields, in the order it yields it. *)
Record DirEntry : Type := mkEntry {
  name : string;
  is_file : bool
}.

(** The dictionaries stored in [image_dict] and [card_pairs]. *)
Record CardPair : Type := mkPair {
  grade : string;
  unique_id : string;
  extension : string;
  front : option string;
  back : option string
}.

(** [d[side] = file_name] for a side that is ["front"] or ["back"]. *)
Definition set_side (side file_name : string) (d : CardPair) : CardPair :=
  if String.eqb side "front"
  then mkPair (grade d) (unique_id d) (extension d) (Some file_name) (back d)
  else mkPair (grade d) (unique_id d) (extension d) (front d) (Some file_name).

Definition nonempty (s : string) : bool := negb (String.eqb s "").

Definition truthy_name (o : option string) : bool :=
  match o with Some s => nonempty s | None => false end.

(** The fields that the loop body of [load_image_directory] reads off a
    directory entry, when the entry passes every test of the body:
    a regular file, an image suffix, a name that parses, the grade 10. *)
Definition accepted (file : DirEntry) : option (string * string * string * string) :=
  if is_file file
     && bool_decide (lower (suffix (name file)) ∈ [".jpg"; ".jpeg"; ".png"])
  then
    match parse_filename (name file) with
    | Some (g, u, s, e) =>
        if nonempty g && nonempty u && nonempty s && is_grade_10 g
        then Some (g, u, s, e) else None
    | None => None
    end
  else None.

(** One iteration of the scan loop. *)
Definition scan_step (image_dict : gmap string CardPair) (file : DirEntry)
  : gmap string CardPair :=
  match accepted file with
  | Some (g, u, s, e) =>
      let image_dict1 :=
        match image_dict !! u with
        | None => <[u := mkPair g u e None None]> image_dict
        | Some _ => image_dict
        end in
      alter (set_side s (name file)) u image_dict1
  | None => image_dict
  end.

Definition scan (listing : list DirEntry) : gmap string CardPair :=
  foldl scan_step ∅ listing.

(** The identifier under which the scan files an entry, if it accepts it. *)
Definition uid_of (file : DirEntry) : option string :=
  match accepted file with
  | Some (_, u, _, _) => Some u
  | None => None
  end.

(** [g] and [e] are the grade and the extension of the first entry of
    [listing] that the scan accepts under the identifier [u]. *)
Definition first_accepted (listing : list DirEntry) (u g e : string) : Prop :=
  exists pre file post s,
    listing = pre ++ file :: post /\
    accepted file = Some (g, u, s, e) /\
    (forall f, f ∈ pre -> uid_of f <> Some u).

(** What the scan has established after the entries [scanned]: an
    identifier is absent from the dictionary only if no scanned entry was
    accepted under it, and a dictionary entry carries its key and the grade
    and extension of the first scanned entry accepted under that key. *)
Definition scan_inv (scanned : list DirEntry) (d : gmap string CardPair) : Prop :=
  (forall u, d !! u = None -> forall f, f ∈ scanned -> uid_of f <> Some u) /\
  (forall u p, d !! u = Some p ->
     unique_id p = u /\ first_accepted scanned u (grade p) (extension p)).

(** The listing has an entry that the scan accepts under the identifier
    [u] with the side [s], named [n]. *)
Definition sided_as (listing : list DirEntry) (u s n : string) : Prop :=
  exists f g e, f ∈ listing /\ name f = n /\ accepted f = Some (g, u, s, e).

Definition sided (listing : list DirEntry) (u s : string) : Prop :=
  exists n, sided_as listing u s n.

(** What the scan has established about the two slots of each dictionary
    entry: a slot holds the name of a scanned entry accepted for that
    identifier and side, and is filled as soon as there is one. *)
Definition side_inv (scanned : list DirEntry) (d : gmap string CardPair) : Prop :=
  forall u p, d !! u = Some p ->
    (forall n, front p = Some n -> sided_as scanned u "front" n) /\
    (forall n, back p = Some n -> sided_as scanned u "back" n) /\
    (sided scanned u "front" -> is_Some (front p)) /\
    (sided scanned u "back" -> is_Some (back p)).

(** Order of [card_pairs.sort(key=lambda x: x['unique_id'])]. *)
Definition uid_le (a b : CardPair) : Prop :=
  String.leb (unique_id a) (unique_id b) = true.

#[global] Instance uid_le_dec a b : Decision (uid_le a b).
Proof. unfold uid_le. apply _. Defined.

(** The pairs that have both sides, sorted by [unique_id].  The keys of
    [image_dict] are distinct, so the sorted list does not depend on the
    order in which the dictionary is walked. *)
Definition pairs_of (image_dict : gmap string CardPair) : list CardPair :=
  merge_sort uid_le
    (filter (λ d, truthy_name (front d) && truthy_name (back d) = true)
            (snd <$> map_to_list image_dict)).

(** Session state of the classifier. *)
Record State : Type := mkState {
  current_index : Z;
  card_pairs : list CardPair;
  data_loaded : bool;
  source_dir : option string;
  classified_count : Z
}.

(** [load_image_directory]; [listing] is what the directory holds, [None]
    when it does not exist. *)
Definition load_image_directory (listing : option (list DirEntry))
    (directory_path : string) (st : State) : State :=
  match listing with
  | None => st
  | Some files =>
      mkState 0 (pairs_of (scan files)) true (Some directory_path) 0
  end.

(** *** Classification *)

(** The files of the source directory, by name. *)
Abbreviation Directory := (gmap string string).

Record World : Type := mkWorld {
  state : State;
  dir : Directory
}.

(** [Path.rename] on a POSIX system: fails when the source is missing,
    replaces the target otherwise. *)
Definition posix_rename (d : Directory) (src dst : string) : Res Directory :=
  match d !! src with
  | None => Raise (FileNotFoundError src)
  | Some data => Ok (<[dst := data]> (delete src d))
  end.

Section Classify.

(** The rename primitive of the platform.  A call either renames or raises
    and leaves the directory alone. *)
Variable rename_file : Directory -> string -> string -> Res Directory.

Definition rename (src dst : string) : M World unit :=
  fun w => match rename_file (dir w) src dst with
           | Ok d => (mkWorld (state w) d, Ok tt)
           | Raise e => (w, Raise e)
           end.

Definition set_card_pair (ref : nat) (p : CardPair) (st : State) : State :=
  mkState (current_index st) (<[ref := p]> (card_pairs st)) (data_loaded st)
          (source_dir st) (classified_count st).

Definition incr_classified (st : State) : State :=
  mkState (current_index st) (card_pairs st) (data_loaded st)
          (source_dir st) (classified_count st + 1).

Definition advance (st : State) : State :=
  if (current_index st <? Z.of_nat (length (card_pairs st)) - 1)%Z
  then mkState (current_index st + 1) (card_pairs st) (data_loaded st)
               (source_dir st) (classified_count st)
  else st.

Definition on_state (f : State -> State) : M World unit :=
  modify (fun w => mkWorld (f (state w)) (dir w)).

Definition require {A} (o : option A) : Res A :=
  match o with Some a => Ok a | None => Raise TypeError end.

(** [f"{new_grade}_{card_pair['unique_id']}_front.{card_pair['extension']}"]
    and its [back] counterpart. *)
Definition new_name (new_grade : string) (card_pair : CardPair) (side : string)
  : string :=
  new_grade +:+ "_" +:+ unique_id card_pair +:+ "_" +:+ side +:+ "."
    +:+ extension card_pair.

(** [rename_card_pair(card_pair, new_grade)].  The argument is one of the
    dictionaries held in [st.session_state.card_pairs]; [ref] is its
    position there, so that the mutation of the dictionary is seen through
    the session list as in Python. *)
Definition rename_card_pair (ref : nat) (new_grade : string) : M World bool :=
  (w <- get ;;
   card_pair <- lift (match card_pairs (state w) !! ref with
                     | Some p => Ok p | None => Raise IndexError end) ;;
   _ <- lift (require (source_dir (state w))) ;;
   old_front <- lift (require (front card_pair)) ;;
   old_back <- lift (require (back card_pair)) ;;
   let new_front_name := new_name new_grade card_pair "front" in
   let new_back_name := new_name new_grade card_pair "back" in
   try_except
     (rename old_front new_front_name ;;;
      rename old_back new_back_name ;;;
      on_state (set_card_pair ref
        (mkPair new_grade (unique_id card_pair) (extension card_pair)
                (Some new_front_name) (Some new_back_name))) ;;;
      on_state incr_classified ;;;
      on_state advance ;;;
      ret true)
     (fun _ => ret false))%py.

End Classify.

(** *** The buttons *)

Section Buttons.

Variable rename_file : Directory -> string -> string -> Res Directory.

(** The [10m] and [10p] buttons: [rename_card_pair(current_card, label)]
    with [current_card = card_pairs[current_index]]. *)
Definition classify_current (new_grade : string) : M World bool :=
  (w <- get ;;
   match py_norm (length (card_pairs (state w))) (current_index (state w)) with
   | Some ref => rename_card_pair rename_file ref new_grade
   | None => raise IndexError
   end)%py.

(** [Skip] and [Next] advance the cursor, [Prev] moves it back. *)
Definition skip_card : M World unit := on_state advance.

Definition prev_card : M World unit :=
  on_state (fun st =>
    if (0 <? current_index st)%Z
    then mkState (current_index st - 1) (card_pairs st) (data_loaded st)
                 (source_dir st) (classified_count st)
    else st).

Inductive Button : Type :=
  | Mint
  | Poor
  | Skip
  | PrevCard
  | NextCard.

Definition press (b : Button) (w : World) : World :=
  match b with
  | Mint => fst (classify_current "10m" w)
  | Poor => fst (classify_current "10p" w)
  | Skip => fst (skip_card w)
  | PrevCard => fst (prev_card w)
  | NextCard => fst (skip_card w)
  end.

Definition press_all (bs : list Button) (w : World) : World :=
  foldl (fun w b => press b w) w bs.

End Buttons.

(** The cursor designates a pair, or is 0 when there is none. *)
Definition cursor_ok (st : State) : Prop :=
  (0 <= current_index st)%Z /\
  (current_index st <= Z.max 0 (Z.of_nat (length (card_pairs st)) - 1))%Z.

End Classifier.

(** ** The curation engine (app.py) *)

Module Curation.

(** One record of the input document.  [grade] is whatever JSON scalar the
    document or the metadata form supplied ([PNone] when the key is absent
    or null); [grading_company] and [listing_id] are strings when present;
    the remaining keys are carried along untouched.  [images] is the list
    under the key of that name; a record without the key is read as one with
    no image, which is what [item.get('images', [])] does, while
    [item['images']] raises [KeyError] on such a record: what is proved
    about [delete_image] and [swap_images] is about records that have the
    key. *)
Record DatasetItem : Type := mkItem {
  images : list string;
  grade : PyVal;
  grading_company : option string;
  listing_id : option string;
  passthrough : list (string * PyVal)
}.

(** What [json.load] returns for a well-formed document that is a record
    or a list of records; other JSON values are not represented. *)
Inductive Document : Type :=
  | DocObject (item : DatasetItem)
  | DocArray (items : list DatasetItem).

(** [st.session_state]. *)
Record Session : Type := mkSession {
  current_index : Z;
  dataset : list DatasetItem;
  data_loaded : bool;
  base_path : option string;
  modified_items : gset Z;
  deleted_items : gset Z
}.

(** An output directory of [export_dataset]: one directory per grading
    company holding the copied images by file name, and the metadata
    snapshot once it has been written. *)
Record OutputDir : Type := mkOut {
  companies : gmap string (gmap string string);
  metadata : option (list DatasetItem)
}.

(** The session and the file system around it: the regular files the
    curation reads and deletes (the input document, the images under the
    base path), by path, and the output directories written by exports, by
    path. *)
Record World : Type := mkWorld {
  session : Session;
  files : gmap string string;
  outputs : gmap string OutputDir
}.

Definition on_session (f : Session -> Session) : M World unit :=
  modify (fun w => mkWorld (f (session w)) (files w) (outputs w)).

Definition set_dataset (ds : list DatasetItem) (s : Session) : Session :=
  mkSession (current_index s) ds (data_loaded s) (base_path s)
            (modified_items s) (deleted_items s).

Definition set_modified (m : gset Z) (s : Session) : Session :=
  mkSession (current_index s) (dataset s) (data_loaded s) (base_path s)
            m (deleted_items s).

Definition set_deleted (d : gset Z) (s : Session) : Session :=
  mkSession (current_index s) (dataset s) (data_loaded s) (base_path s)
            (modified_items s) d.

Definition add_modified (i : Z) (s : Session) : Session :=
  set_modified ({[i]} ∪ modified_items s) s.

(** [if current_index < len(dataset) - 1: current_index += 1]. *)
Definition advance (s : Session) : Session :=
  if (current_index s <? Z.of_nat (length (dataset s)) - 1)%Z
  then mkSession (current_index s + 1) (dataset s) (data_loaded s)
                 (base_path s) (modified_items s) (deleted_items s)
  else s.

Definition with_images (l : list string) (it : DatasetItem) : DatasetItem :=
  mkItem l (grade it) (grading_company it) (listing_id it) (passthrough it).

Definition with_metadata (g : PyVal) (c : option string) (it : DatasetItem)
  : DatasetItem :=
  mkItem (images it) g c (listing_id it) (passthrough it).

(** Write back the dictionary [dataset[item_index]] after it was mutated in
    place. *)
Definition store_item (item_index : Z) (it : DatasetItem) : M World unit :=
  (w <- get ;;
   ds <- lift (py_setitem (dataset (session w)) item_index it) ;;
   on_session (set_dataset ds))%py.

Section Load.

(** [json.load] on the text of a file; [None] when the text is not a
    well-formed document. *)
Variable json_load : string -> option Document.

Definition load_dataset (json_path base : string) : M World unit :=
  (w <- get ;;
   text <- lift (match files w !! json_path with
                 | Some t => Ok t
                 | None => Raise (FileNotFoundError json_path)
                 end) ;;
   data <- lift (match json_load text with
                 | Some d => Ok d
                 | None => Raise JSONDecodeError
                 end) ;;
   let data := match data with
               | DocObject it => [it]
               | DocArray l => l
               end in
   on_session (fun _ => mkSession 0 data true (Some base) ∅ ∅))%py.

End Load.

Definition get_full_image_path (image_rel_path : string) : M World string :=
  (w <- get ;;
   match base_path (session w) with
   | Some base => ret (path_join base image_rel_path)
   | None => raise TypeError
   end)%py.

(** [os.remove], guarded by [os.path.exists] in the caller. *)
Definition remove_file (path : string) : M World unit :=
  modify (fun w => mkWorld (session w) (delete path (files w)) (outputs w)).

Definition delete_image (item_index image_index : Z) : M World unit :=
  (w <- get ;;
   item <- lift (py_getitem (dataset (session w)) item_index) ;;
   if (image_index <? Z.of_nat (length (images item)))%Z then
     rel <- lift (py_getitem (images item) image_index) ;;
     image_path <- get_full_image_path rel ;;
     (if bool_decide (is_Some (files w !! image_path))
      then remove_file image_path else ret tt) ;;;
     rest <- lift (py_pop (images item) image_index) ;;
     store_item item_index (with_images rest item) ;;;
     on_session (add_modified item_index)
   else ret tt)%py.

Definition delete_listing (item_index : Z) : M World unit :=
  (on_session (fun s => set_deleted ({[item_index]} ∪ deleted_items s) s) ;;;
   w <- get ;;
   (if bool_decide (item_index ∈ modified_items (session w))
    then on_session (fun s => set_modified (modified_items s ∖ {[item_index]}) s)
    else ret tt) ;;;
   on_session advance)%py.

Definition swap_images (item_index index1 index2 : Z) : M World unit :=
  (w <- get ;;
   item <- lift (py_getitem (dataset (session w)) item_index) ;;
   let n := Z.of_nat (length (images item)) in
   if ((index1 <? n) && (index2 <? n))%Z then
     x2 <- lift (py_getitem (images item) index2) ;;
     x1 <- lift (py_getitem (images item) index1) ;;
     l1 <- lift (py_setitem (images item) index1 x2) ;;
     l2 <- lift (py_setitem l1 index2 x1) ;;
     store_item item_index (with_images l2 item) ;;;
     on_session (add_modified item_index)
   else ret tt)%py.

Definition update_metadata (item_index : Z) (g : PyVal) (company : option string)
  : M World unit :=
  (w <- get ;;
   item <- lift (py_getitem (dataset (session w)) item_index) ;;
   store_item item_index (with_metadata g company item) ;;;
   on_session (add_modified item_index) ;;;
   on_session advance)%py.

Definition undelete_listing (item_index : Z) : M World unit :=
  (w <- get ;;
   if bool_decide (item_index ∈ deleted_items (session w))
   then on_session (fun s => set_deleted (deleted_items s ∖ {[item_index]}) s)
   else ret tt)%py.

(** *** Export *)

(** The entries of [export_log], by the message they stand for:
    ["Skipped: <id> - Marked for deletion"],
    ["Skipped: <id> - Missing grade or grading company"],
    ["Skipped: <id> - Need exactly 2 images (front/back)"],
    ["Exported: <id> as <unique_id>"] and
    ["Error exporting <id>: <exception>"]. *)
Inductive LogEntry : Type :=
  | SkippedDeleted (id : string)
  | SkippedMissing (id : string)
  | SkippedImages (id : string)
  | Exported (id unique_id : string)
  | ErrorExporting (id : string) (e : Exn).

Record Counters : Type := mkCounters {
  exported_count : nat;
  skipped_count : nat;
  export_log : list LogEntry
}.

Definition skip (entry : LogEntry) (a : Counters) : Counters :=
  mkCounters (exported_count a) (S (skipped_count a)) (export_log a ++ [entry]).

Definition count_export (entry : LogEntry) (a : Counters) : Counters :=
  mkCounters (S (exported_count a)) (skipped_count a) (export_log a ++ [entry]).

(** [item.get('listing_id', 'unknown')]. *)
Definition id_of (item : DatasetItem) : string :=
  default "unknown" (listing_id item).

(** Truthiness of [item.get('grading_company')]. *)
Definition truthy_company (item : DatasetItem) : bool :=
  match grading_company item with
  | Some c => negb (String.eqb c "")
  | None => false
  end.

Definition the_output (output_dir : string) (w : World) : OutputDir :=
  default (mkOut ∅ None) (outputs w !! output_dir).

Definition set_output (output_dir : string) (o : OutputDir) (w : World) : World :=
  mkWorld (session w) (files w) (<[output_dir := o]> (outputs w)).

(** [Path.mkdir(parents=True, exist_ok=True)] on the output directory and on
    a company directory in it.  The company is the key of the directory
    inside the output directory: a company name that is a relative path
    with [..] or an absolute path, which [output_path / company] resolves
    outside the output directory, is not followed there.  The calls are
    taken to succeed; in the source they stand outside the [try], so one
    that fails ends the export with its exception. *)
Definition mkdir_output (output_dir : string) : M World unit :=
  modify (fun w => set_output output_dir (the_output output_dir w) w).

Definition mkdir_company (output_dir company : string) : M World unit :=
  modify (fun w =>
    let o := the_output output_dir w in
    match companies o !! company with
    | Some _ => w
    | None => set_output output_dir
                (mkOut (<[company := ∅]> (companies o)) (metadata o)) w
    end).

(** [shutil.copy2] of a source file into a company directory.  The copy
    fails only when the source is not a regular file; a failure on the
    destination side (a name the file system refuses, a full disk, missing
    permissions) is not represented, so [ErrorExporting] entries below stand
    for the failures on the source side. *)
Definition copy2 (source_path output_dir company new_filename : string)
  : M World unit :=
  (w <- get ;;
   match files w !! source_path with
   | None => raise (FileNotFoundError source_path)
   | Some data =>
       modify (fun w =>
         let o := the_output output_dir w in
         let d := default ∅ (companies o !! company) in
         set_output output_dir
           (mkOut (<[company := <[new_filename := data]> d]> (companies o))
                  (metadata o)) w)
   end)%py.

(** [json.dump(st.session_state.dataset, f)] into [dataset_metadata.json]. *)
Definition write_metadata (output_dir : string) : M World unit :=
  modify (fun w =>
    let o := the_output output_dir w in
    set_output output_dir (mkOut (companies o) (Some (dataset (session w)))) w).

Section ExportDataset.

(** [str(uuid.uuid4())[:8]] as drawn while the item at a given position is
    processed, and [str] of a float given by its bits. *)
Variable uuid4 : nat -> string.
Variable float_str : Z -> string.

(** The text an f-string puts for a grade. *)
Definition py_str (v : PyVal) : string :=
  match v with
  | PNone => "None"
  | PBool true => "True"
  | PBool false => "False"
  | PInt z => pretty z
  | PFloat bits => float_str bits
  | PStr s => s
  end.

(** The loop [for idx, image_rel_path in enumerate(item['images'])], from
    position [k] on.  [os.path.exists] is answered from the regular files
    of the world; a source path that names a directory is not
    represented. *)
Fixpoint copy_images (output_dir company grade_str unique_id : string)
    (k : nat) (imgs : list string) : M World unit :=
  match imgs with
  | [] => ret tt
  | image_rel_path :: rest =>
      (source_path <- get_full_image_path image_rel_path ;;
       w <- get ;;
       (if bool_decide (is_Some (files w !! source_path)) then ret tt
        else raise (FileNotFoundError source_path)) ;;;
       let ext := suffix (basename source_path) in
       let image_type := if (k =? 0)%nat then "front" else "back" in
       let new_filename :=
         grade_str +:+ "_" +:+ unique_id +:+ "_" +:+ image_type +:+ ext in
       copy2 source_path output_dir company new_filename ;;;
       copy_images output_dir company grade_str unique_id (S k) rest)%py
  end.

(** The body of the loop over the dataset. *)
Definition export_item (output_dir : string) (idx : nat) (item : DatasetItem)
    (wa : World * Counters) : World * Counters :=
  let '(w, a) := wa in
  if bool_decide (Z.of_nat idx ∈ deleted_items (session w)) then
    (w, skip (SkippedDeleted (id_of item)) a)
  else if negb (truthy (grade item)) || negb (truthy_company item) then
    (w, skip (SkippedMissing (id_of item)) a)
  else if negb (length (images item) =? 2)%nat then
    (w, skip (SkippedImages (id_of item)) a)
  else
    let company := default "" (grading_company item) in
    let '(w1, _) := mkdir_company output_dir company w in
    let unique_id := uuid4 idx in
    match copy_images output_dir company (py_str (grade item)) unique_id
                      0 (images item) w1 with
    | (w2, Ok _) => (w2, count_export (Exported (id_of item) unique_id) a)
    | (w2, Raise e) => (w2, skip (ErrorExporting (id_of item) e) a)
    end.

Fixpoint export_loop (output_dir : string) (idx : nat) (items : list DatasetItem)
    (wa : World * Counters) : World * Counters :=
  match items with
  | [] => wa
  | item :: rest =>
      export_loop output_dir (S idx) rest (export_item output_dir idx item wa)
  end.

(** [export_dataset(output_dir)]: the world after the export and the
    returned [(exported_count, skipped_count, export_log)]. *)
Definition export_dataset (output_dir : string) (w : World) : World * Counters :=
  let '(w0, _) := mkdir_output output_dir w in
  let '(w1, a) :=
    export_loop output_dir 0 (dataset (session w0)) (w0, mkCounters 0 0 []) in
  let '(w2, _) := write_metadata output_dir w1 in
  (w2, a).

End ExportDataset.

(** *** Observations on an export *)

(** The log entry reports a completed export of the item. *)
Definition is_exported (e : LogEntry) : bool :=
  match e with Exported _ _ => true | _ => false end.

(** The source file of an image reference exists: what
    [os.path.exists(get_full_image_path(image_rel_path))] answers. *)
Definition source_exists (w : World) (image_rel_path : string) : bool :=
  match base_path (session w) with
  | Some base => bool_decide (is_Some (files w !! path_join base image_rel_path))
  | None => false
  end.

(** The item passes the three filters that precede the export attempt. *)
Definition passes_filters (w : World) (idx : nat) (item : DatasetItem) : bool :=
  negb (bool_decide (Z.of_nat idx ∈ deleted_items (session w)))
  && truthy (grade item) && truthy_company item
  && (length (images item) =? 2)%nat.

(** The output directory has a directory for the company. *)
Definition has_company (output_dir company : string) (w : World) : Prop :=
  is_Some (companies (the_output output_dir w) !! company).

(** The records of [dataset_metadata.json] in the output directory. *)
Definition snapshot (output_dir : string) (w : World)
  : option (list DatasetItem) :=
  o ← outputs w !! output_dir; metadata o.

(** The export condition in the words of the specification: the grade is
    set (a record without grade is ungraded), the grading company is set and
    not empty. *)
Definition grade_set (item : DatasetItem) : Prop := grade item <> PNone.

Definition company_set (item : DatasetItem) : Prop :=
  exists c, grading_company item = Some c /\ c <> "".

(** The item at position [idx] is reported as exported in the log. *)
Definition exported_in (log : list LogEntry) (idx : nat) : Prop :=
  exists e, log !! idx = Some e /\ is_exported e = true.

(** *** Operator actions *)

(** The edits an operator can make between load and export. *)
Inductive Edit : Type :=
  | DeleteImage (item_index image_index : Z)
  | SwapImages (item_index index1 index2 : Z)
  | UpdateMetadata (item_index : Z) (g : PyVal) (company : option string)
  | MarkDeleted (item_index : Z)
  | UnmarkDeleted (item_index : Z).

Definition run_edit (e : Edit) : M World unit :=
  match e with
  | DeleteImage i k => delete_image i k
  | SwapImages i a b => swap_images i a b
  | UpdateMetadata i g c => update_metadata i g c
  | MarkDeleted i => delete_listing i
  | UnmarkDeleted i => undelete_listing i
  end.

(** The world after a call, whether it returned or raised: the Streamlit
    script reruns on the state the call left behind. *)
Definition after {A} (m : M World A) (w : World) : World := fst (m w).

Definition after_edits (es : list Edit) (w : World) : World :=
  foldl (fun w e => after (run_edit e) w) w es.

(** *** The sidebar *)

(** The [Prev] and [Next] buttons. *)
Definition prev_item : M World unit :=
  on_session (fun s =>
    if (0 <? current_index s)%Z
    then mkSession (current_index s - 1) (dataset s) (data_loaded s)
                   (base_path s) (modified_items s) (deleted_items s)
    else s).

Definition next_item : M World unit := on_session advance.

(** The "Ready to Export" metric: the number of items, not marked
    deleted, that have a grade, a grading company and exactly two images. *)
Fixpoint count_valid (w : World) (idx : nat) (items : list DatasetItem) : nat :=
  match items with
  | [] => 0
  | item :: rest =>
      (if passes_filters w idx item then 1 else 0) + count_valid w (S idx) rest
  end.

Definition valid_count (w : World) : nat :=
  count_valid w 0 (dataset (session w)).

(** What the operator can do between two reruns of the script. *)
Inductive Action : Type :=
  | DoEdit (e : Edit)
  | Prev
  | Next.

Definition run_action (a : Action) : M World unit :=
  match a with
  | DoEdit e => run_edit e
  | Prev => prev_item
  | Next => next_item
  end.

Definition after_actions (acts : list Action) (w : World) : World :=
  foldl (fun w a => after (run_action a) w) w acts.

(** The cursor designates an item, or is 0 on an empty dataset. *)
Definition cursor_ok (s : Session) : Prop :=
  (0 <= current_index s)%Z /\
  (current_index s <= Z.max 0 (Z.of_nat (length (dataset s)) - 1))%Z.

(** *** The export log, read off the session and the source files *)

(** The exception that stops the copy loop of an item, if any: the base
    path is unset, or a source file is missing. *)
Fixpoint first_failure (w : World) (imgs : list string) : option Exn :=
  match imgs with
  | [] => None
  | image_rel_path :: rest =>
      match base_path (session w) with
      | None => Some TypeError
      | Some base =>
          if bool_decide (is_Some (files w !! path_join base image_rel_path))
          then first_failure w rest
          else Some (FileNotFoundError (path_join base image_rel_path))
      end
  end.

(** The log entry of the item at position [idx]. *)
Definition log_entry (uuid4 : nat -> string) (w : World) (idx : nat)
    (item : DatasetItem) : LogEntry :=
  if bool_decide (Z.of_nat idx ∈ deleted_items (session w)) then
    SkippedDeleted (id_of item)
  else if negb (truthy (grade item)) || negb (truthy_company item) then
    SkippedMissing (id_of item)
  else if negb (length (images item) =? 2)%nat then
    SkippedImages (id_of item)
  else match first_failure w (images item) with
       | None => Exported (id_of item) (uuid4 idx)
       | Some e => ErrorExporting (id_of item) e
       end.

Fixpoint log_entries (uuid4 : nat -> string) (w : World) (idx : nat)
    (items : list DatasetItem) : list LogEntry :=
  match items with
  | [] => []
  | item :: rest => log_entry uuid4 w idx item :: log_entries uuid4 w (S idx) rest
  end.

(** Counting one entry, and a list of entries, into the counters. *)
Definition record_entry (a : Counters) (e : LogEntry) : Counters :=
  if is_exported e then count_export e a else skip e a.

Definition tally (es : list LogEntry) (a : Counters) : Counters :=
  foldl record_entry a es.

(** The name under which the export copies the image at position [k] of an
    item. *)
Definition export_name (grade_str unique_id : string) (k : nat)
    (source_path : string) : string :=
  grade_str +:+ "_" +:+ unique_id +:+ "_"
    +:+ (if (k =? 0)%nat then "front" else "back")
    +:+ suffix (basename source_path).

End Curation.

(** ** Sample data *)

Module Sample.
Import Curation.

Definition uuid4 (n : nat) : string := "c0ffee0" +:+ pretty n.
Definition float_str (bits : Z) : string :=
  if float_is_zero bits then "0.0" else "10.0".

Definition card (g : PyVal) (c : option string) (imgs : list string)
  : DatasetItem :=
  mkItem imgs g c (Some "L1") [("title", PStr "Charizard")].

(** Four records: a grade of 0, a complete record, a record whose second
    image is missing on disk, and a record with three images. *)
Definition items : list DatasetItem :=
  [ card (PInt 0) (Some "PSA") ["a.jpg"; "b.jpg"];
    card (PInt 10) (Some "PSA") ["a.jpg"; "b.png"];
    card (PStr "9") (Some "CGC") ["a.jpg"; "gone.jpg"];
    card (PFloat 0) (Some "BGS") ["a.jpg"; "b.jpg"; "b.png"] ].

Definition world : World :=
  mkWorld (mkSession 0 items true (Some "/data") ∅ ∅)
          {[ "/data/a.jpg" := "A"; "/data/b.jpg" := "B"; "/data/b.png" := "P";
             "/in.json" := "{oops" ]}
          ∅.

(** A parser that knows two documents. *)
Definition json_load (text : string) : option Document :=
  if String.eqb text "[]" then Some (DocArray [])
  else if String.eqb text "{}" then Some (DocObject (card PNone None []))
  else None.

(** The sample world with two well-formed documents on disk as well. *)
Definition world_docs : World :=
  mkWorld (session world)
          (<["/one.json" := "{}"]> (<["/none.json" := "[]"]> (files world)))
          (outputs world).

End Sample.

Module SampleCards.
Import Classifier.

(** A directory in which the two sides of card [ab12] have different
    extensions, and card [cd34] has no back. *)
Definition listing : list DirEntry :=
  [ mkEntry "10_ab12_front.jpg" true;
    mkEntry "notes.txt" true;
    mkEntry "10_ab12_back.png" true;
    mkEntry "10.0_cd34_front.png" true ].

Definition pair : CardPair :=
  mkPair "10" "ab12" "jpg" (Some "10_ab12_front.jpg") (Some "10_ab12_back.png").

(** The session after the scan, on a directory from which the back file
    has since disappeared. *)
Definition world : World :=
  mkWorld (mkState 0 [pair] true (Some "/cards") 0)
          {[ "10_ab12_front.jpg" := "F"; "notes.txt" := "n" ]}.

(** The same session on the directory as it was scanned. *)
Definition world_full : World :=
  mkWorld (state world)
          {[ "10_ab12_front.jpg" := "F"; "10_ab12_back.png" := "B";
             "notes.txt" := "n" ]}.

End SampleCards.

(** * Properties *)

(** ** Python indexing *)

Lemma py_getitem_Ok {A} (l : list A) i x :
  py_getitem l i = Ok x <->
  exists n, py_norm (length l) i = Some n /\ l !! n = Some x.
Proof.
  unfold py_getitem. split.
  - destruct (py_norm _ i) as [n|]; [|done].
    destruct (l !! n) eqn:E; [|done]. intros [= <-]. eauto.
  - intros (n & -> & ->). done.
Qed.

Lemma py_setitem_norm {A} (l : list A) i n x :
  py_norm (length l) i = Some n -> py_setitem l i x = Ok (<[n := x]> l).
Proof. unfold py_setitem. by intros ->. Qed.

Lemma py_getitem_norm {A} (l : list A) i n x :
  py_norm (length l) i = Some n -> l !! n = Some x -> py_getitem l i = Ok x.
Proof. intros. apply py_getitem_Ok. eauto. Qed.

(** Exchanging two positions of a list twice gives the list back. *)
Lemma list_swap_twice {A} (l : list A) p q x y :
  l !! p = Some x -> l !! q = Some y ->
  let l' := <[q := x]> (<[p := y]> l) in
  exists x' y', l' !! p = Some x' /\ l' !! q = Some y' /\
    <[q := x']> (<[p := y']> l') = l.
Proof.
  intros Hp Hq l'.
  assert (Lp : p < length l) by (eapply lookup_lt_Some; eauto).
  assert (Lq : q < length l) by (eapply lookup_lt_Some; eauto).
  destruct (decide (p = q)) as [->|Hne].
  - simplify_eq. exists x, x. subst l'.
    rewrite !list_insert_insert_eq.
    rewrite !list_lookup_insert_eq by done.
    split_and!; try done.
    by apply list_insert_id.
  - exists y, x. subst l'. split_and!.
    + rewrite list_lookup_insert_ne by done.
      by rewrite list_lookup_insert_eq.
    + rewrite list_lookup_insert_eq; [done|]. by rewrite length_insert.
    + rewrite (list_insert_insert_ne _ p q) by done.
      rewrite !list_insert_insert_eq.
      rewrite (list_insert_id _ p) by done.
      by apply list_insert_id.
Qed.

(** ** Curation: edits *)

Import Curation.

(** A call of [swap_images] whose item and positions resolve exchanges the
    two positions and marks the item modified. *)
Lemma swap_images_run (w : World) (i a b : Z) k item p q x y :
  py_norm (length (dataset (session w))) i = Some k ->
  dataset (session w) !! k = Some item ->
  ((a <? Z.of_nat (length (images item)))
   && (b <? Z.of_nat (length (images item))))%Z = true ->
  py_norm (length (images item)) a = Some p ->
  py_norm (length (images item)) b = Some q ->
  images item !! p = Some x -> images item !! q = Some y ->
  after (swap_images i a b) w =
    mkWorld
      (add_modified i
        (set_dataset
          (<[k := with_images (<[q := x]> (<[p := y]> (images item))) item]>
             (dataset (session w)))
          (session w)))
      (files w) (outputs w).
Proof.
  intros Hk Hitem Hg Hp Hq Hx Hy.
  unfold after, swap_images, bind, get, lift, store_item, on_session, modify.
  simpl. rewrite (py_getitem_norm _ _ _ _ Hk Hitem). simpl. rewrite Hg.
  rewrite (py_getitem_norm _ _ _ _ Hq Hy), (py_getitem_norm _ _ _ _ Hp Hx).
  simpl. rewrite (py_setitem_norm _ _ _ _ Hp).
  rewrite (py_setitem_norm (<[p:=y]> (images item)) b q)
    by (by rewrite length_insert).
  unfold bind, get, lift. by rewrite (py_setitem_norm _ _ _ _ Hk).
Qed.

(** Any other call leaves the world as it is. *)
Lemma swap_images_cases (w : World) (i a b : Z) :
  after (swap_images i a b) w = w \/
  exists k item p q x y,
    py_norm (length (dataset (session w))) i = Some k /\
    dataset (session w) !! k = Some item /\
    ((a <? Z.of_nat (length (images item)))
     && (b <? Z.of_nat (length (images item))))%Z = true /\
    py_norm (length (images item)) a = Some p /\
    py_norm (length (images item)) b = Some q /\
    images item !! p = Some x /\ images item !! q = Some y.
Proof.
  unfold after, swap_images, bind, get, lift. simpl.
  destruct (py_getitem (dataset (session w)) i) as [item|] eqn:Hit; [|by left].
  simpl. case_match eqn:Hg; [|by left].
  destruct (py_getitem (images item) b) as [y|] eqn:Hb; [|by left].
  destruct (py_getitem (images item) a) as [x|] eqn:Ha; [|by left].
  apply py_getitem_Ok in Hit as (k & Hk & Hitem).
  apply py_getitem_Ok in Ha as (p & Hp & Hx).
  apply py_getitem_Ok in Hb as (q & Hq & Hy).
  right. exists k, item, p, q, x, y. done.
Qed.

(** C7. [swap_images] is an involution on the dataset: calling it twice
    with the same item index and positions leaves every image list in its
    original order.  This covers the calls that do nothing (a position at or
    beyond the length) and the calls that raise [IndexError] (an index below
    minus the length), which leave the dataset alone both times. *)
Theorem swap_images_involution (w : World) (i a b : Z) :
  dataset (session (after (swap_images i a b) (after (swap_images i a b) w)))
  = dataset (session w).
Proof.
  destruct (swap_images_cases w i a b) as
    [E1|(k & item & p & q & x & y & Hk & Hitem & Hg & Hp & Hq & Hx & Hy)].
  { by rewrite !E1. }
  rewrite (swap_images_run w i a b k item p q x y) by done.
  destruct (list_swap_twice (images item) p q x y Hx Hy)
    as (x' & y' & Hx' & Hy' & Hback).
  assert (Hlen : length (<[q:=x]> (<[p:=y]> (images item))) = length (images item))
    by (by rewrite !length_insert).
  assert (Hk' : k < length (dataset (session w)))
    by (eapply lookup_lt_Some; eauto).
  rewrite (swap_images_run _ i a b k
             (with_images (<[q:=x]> (<[p:=y]> (images item))) item) p q x' y');
    simpl; try (rewrite ?length_insert; done).
  - rewrite list_insert_insert_eq. unfold with_images. simpl.
    rewrite Hback. apply list_insert_id. rewrite Hitem. by destruct item.
  - by apply list_lookup_insert_eq.
Qed.

(** C8. Marking a listing for deletion and then restoring it leaves the
    index out of the deleted set and leaves the dataset, hence the image
    list and every metadata field of every item, as it was. *)
Theorem mark_unmark_roundtrip (w : World) (i : Z) :
  let w' := after (undelete_listing i) (after (delete_listing i) w) in
  (i ∉ deleted_items (session w')) /\
  dataset (session w') = dataset (session w).
Proof.
  unfold after, undelete_listing, delete_listing, bind, get, on_session,
    modify, ret. simpl.
  destruct (bool_decide (i ∈ modified_items (session w))); simpl;
    unfold advance; simpl.
  all: destruct (current_index (session w) <? _)%Z; simpl.
  all: rewrite bool_decide_eq_true_2
         by (apply elem_of_union_l; by apply elem_of_singleton); simpl.
  all: split; [|done].
  all: rewrite elem_of_difference, elem_of_singleton; tauto.
Qed.

(** ** Curation: load *)

(** C5. When the input document does not parse, [load_dataset] raises and
    the world, in particular every field of the session state, is what it
    was before the call. *)
Theorem load_malformed_keeps_state (json_load : string -> option Document)
    (w : World) (json_path base text : string) :
  files w !! json_path = Some text ->
  json_load text = None ->
  load_dataset json_load json_path base w = (w, Raise JSONDecodeError).
Proof.
  intros Hf Hp. unfold load_dataset, bind, get, lift. simpl.
  by rewrite Hf, Hp.
Qed.

Lemma load_malformed_keeps_state_witness :
  let json_load := fun text : string =>
    if String.eqb text "[]" then Some (DocArray []) else None in
  let w := mkWorld (mkSession 1 [mkItem ["a.jpg"] PNone None None [];
                                 mkItem [] (PInt 9) (Some "PSA") None []]
                              true (Some "/img") {[0%Z]} {[1%Z]})
                   {["/in.json" := "{oops"]} ∅ in
  load_dataset json_load "/in.json" "/other" w = (w, Raise JSONDecodeError).
Proof.
  intros json_load w.
  apply (load_malformed_keeps_state json_load w "/in.json" "/other" "{oops").
  - reflexivity.
  - reflexivity.
Defined.

(** ** Curation: export *)

Lemma the_output_set out o w : the_output out (set_output out o w) = o.
Proof. unfold the_output, set_output. simpl. by rewrite lookup_insert_eq. Qed.

Lemma source_exists_frame w w' rel :
  session w' = session w -> files w' = files w ->
  source_exists w' rel = source_exists w rel.
Proof. unfold source_exists. by intros -> ->. Qed.

Lemma source_exists_all_frame w w' rels :
  session w' = session w -> files w' = files w ->
  forallb (source_exists w') rels = forallb (source_exists w) rels.
Proof.
  intros Hs Hf. induction rels as [|rel rels IH]; simpl; [done|].
  by rewrite IH, (source_exists_frame w w').
Qed.

Lemma mkdir_company_spec out c w :
  let w' := (mkdir_company out c w).1 in
  session w' = session w /\ files w' = files w /\
  has_company out c w' /\
  (forall c', has_company out c' w -> has_company out c' w').
Proof.
  unfold mkdir_company, modify, has_company. simpl.
  destruct (companies (the_output out w) !! c) eqn:E; simpl.
  - rewrite E. eauto.
  - rewrite the_output_set. simpl. split_and!; try done.
    + rewrite lookup_insert_eq. eauto.
    + intros c' H. destruct (decide (c = c')) as [->|].
      * rewrite lookup_insert_eq. eauto.
      * by rewrite lookup_insert_ne.
Qed.

Lemma copy2_spec src out c fn w :
  let '(w', r) := copy2 src out c fn w in
  session w' = session w /\ files w' = files w /\
  (forall c', has_company out c' w -> has_company out c' w') /\
  (is_Some (files w !! src) -> r = Ok tt).
Proof.
  unfold copy2, bind, get, raise, modify, has_company. simpl.
  destruct (files w !! src) as [data|] eqn:E; simpl.
  - rewrite the_output_set. simpl. split_and!; try done.
    intros c' H. destruct (decide (c = c')) as [->|].
    + rewrite lookup_insert_eq. eauto.
    + by rewrite lookup_insert_ne.
  - split_and!; try done.
Qed.

Lemma copy_images_spec uuid_ g out c : forall imgs k w,
  let '(w', r) := copy_images out c g uuid_ k imgs w in
  session w' = session w /\ files w' = files w /\
  (forall c', has_company out c' w -> has_company out c' w') /\
  is_ok r = forallb (source_exists w) imgs.
Proof.
  induction imgs as [|rel rest IH]; intros k w; simpl.
  { unfold ret. done. }
  unfold bind at 1. unfold get_full_image_path at 1, bind at 1, get at 1.
  unfold source_exists at 1.
  destruct (base_path (session w)) as [base|] eqn:Hb; simpl.
  2: { unfold raise. done. }
  unfold bind at 1, get at 1. unfold bind at 1.
  destruct (bool_decide (is_Some (files w !! path_join base rel))) eqn:Hex; simpl.
  2: { unfold raise. done. }
  apply bool_decide_eq_true in Hex.
  unfold bind at 1.
  pose proof (copy2_spec (path_join base rel) out c
    (g +:+ "_" +:+ uuid_ +:+ "_" +:+ (if (k =? 0)%nat then "front" else "back")
       +:+ suffix (basename (path_join base rel))) w) as Hc.
  destruct (copy2 _ _ _ _ w) as [w1 r1].
  destruct Hc as (Hs1 & Hf1 & Hd1 & Hr1). rewrite (Hr1 Hex).
  specialize (IH (S k) w1).
  destruct (copy_images out c g uuid_ (S k) rest w1) as [w2 r2].
  destruct IH as (Hs2 & Hf2 & Hd2 & Hr2).
  split_and!; try congruence.
  - intros c' H. auto.
  - rewrite Hr2. by apply source_exists_all_frame.
Qed.

Lemma passes_filters_frame w w' idx item :
  session w' = session w ->
  passes_filters w' idx item = passes_filters w idx item.
Proof. unfold passes_filters. by intros ->. Qed.

(** One iteration of the export loop: it reads the session and the source
    files without changing them, keeps every company directory, and appends
    one log entry, which reports an export exactly when the item passes the
    filters and all its sources exist. *)
Lemma export_item_spec uuid4 float_str out idx item w a :
  let '(w', a') := export_item uuid4 float_str out idx item (w, a) in
  session w' = session w /\ files w' = files w /\
  (forall c', has_company out c' w -> has_company out c' w') /\
  exists e,
    export_log a' = export_log a ++ [e] /\
    is_exported e =
      passes_filters w idx item && forallb (source_exists w) (images item) /\
    (passes_filters w idx item = true ->
       has_company out (default "" (grading_company item)) w' /\
       (forallb (source_exists w) (images item) = false ->
          exists x, e = ErrorExporting (id_of item) x)).
Proof.
  unfold export_item, passes_filters.
  destruct (bool_decide (Z.of_nat idx ∈ deleted_items (session w)));
    cbn [negb orb andb].
  { split_and!; try done. eexists. split_and!; done. }
  destruct (truthy (grade item)); cbn [negb orb andb].
  2: { split_and!; try done. eexists. split_and!; done. }
  destruct (truthy_company item); cbn [negb orb andb].
  2: { split_and!; try done. eexists. split_and!; done. }
  destruct (length (images item) =? 2)%nat; cbn [negb orb andb].
  2: { split_and!; try done. eexists. split_and!; done. }
  pose proof (mkdir_company_spec out (default "" (grading_company item)) w) as Hm.
  destruct (mkdir_company out (default "" (grading_company item)) w) as [w1 r1].
  simpl in Hm. destruct Hm as (Hs1 & Hf1 & Hc1 & Hd1).
  pose proof (copy_images_spec (uuid4 idx) (py_str float_str (grade item)) out
    (default "" (grading_company item)) (images item) 0 w1) as Hc.
  destruct (copy_images _ _ _ _ 0 (images item) w1) as [w2 r2].
  destruct Hc as (Hs2 & Hf2 & Hd2 & Hr2).
  rewrite (source_exists_all_frame w w1) in Hr2 by done.
  destruct r2 as [[]|x]; simpl in Hr2.
  - split; [congruence|]. split; [congruence|]. split; [by auto|].
    eexists. split_and!; [done|done|]. intros _. split; [by auto|].
    intros E. congruence.
  - split; [congruence|]. split; [congruence|]. split; [by auto|].
    eexists. split_and!; [done|done|]. intros _. split; [by auto|].
    intros _. eauto.
Qed.

Lemma export_loop_spec uuid4 float_str out : forall items k w a,
  let '(w', a') := export_loop uuid4 float_str out k items (w, a) in
  session w' = session w /\ files w' = files w /\
  (forall c', has_company out c' w -> has_company out c' w') /\
  exists es,
    export_log a' = export_log a ++ es /\ length es = length items /\
    forall j item, items !! j = Some item ->
      exists e, es !! j = Some e /\
        is_exported e =
          passes_filters w (k + j) item
          && forallb (source_exists w) (images item) /\
        (passes_filters w (k + j) item = true ->
           has_company out (default "" (grading_company item)) w' /\
           (forallb (source_exists w) (images item) = false ->
              exists x, e = ErrorExporting (id_of item) x)).
Proof.
  induction items as [|item rest IH]; intros k w a; cbn [export_loop].
  { split_and!; try done. exists []. rewrite app_nil_r. split_and!; try done. }
  pose proof (export_item_spec uuid4 float_str out k item w a) as H1.
  destruct (export_item uuid4 float_str out k item (w, a)) as [w1 a1].
  destruct H1 as (Hs1 & Hf1 & Hd1 & e1 & Hl1 & He1 & Hp1).
  specialize (IH (S k) w1 a1).
  destruct (export_loop uuid4 float_str out (S k) rest (w1, a1)) as [w2 a2].
  destruct IH as (Hs2 & Hf2 & Hd2 & es & Hl2 & Hlen & Hes).
  split; [congruence|]. split; [congruence|]. split; [by auto|].
  exists (e1 :: es). split_and!.
  - by rewrite Hl2, Hl1, <- app_assoc.
  - simpl. by rewrite Hlen.
  - intros [|j] it Hit; simpl in Hit.
    + simplify_eq. exists e1. rewrite Nat.add_0_r. split_and!; try done.
      intros Hp. destruct (Hp1 Hp) as [Hc Herr]. split; auto.
    + destruct (Hes j it Hit) as (e & Hej & Hex & Hp).
      exists e. replace (k + S j) with (S k + j) by lia.
      rewrite (passes_filters_frame w w1) in Hex, Hp by done.
      rewrite (source_exists_all_frame w w1) in Hex, Hp by done.
      done.
Qed.

Lemma write_metadata_spec out w :
  let w' := (write_metadata out w).1 in
  session w' = session w /\ files w' = files w /\
  snapshot out w' = Some (dataset (session w)) /\
  (forall c, has_company out c w -> has_company out c w').
Proof.
  unfold write_metadata, modify, snapshot, has_company. simpl.
  rewrite the_output_set. simpl. by rewrite lookup_insert_eq.
Qed.

(** A whole export: the session and the sources are read only; the
    snapshot is the dataset; the log has one entry per item, in order. *)
Lemma export_dataset_spec uuid4 float_str out w :
  let '(w', a) := export_dataset uuid4 float_str out w in
  session w' = session w /\ files w' = files w /\
  snapshot out w' = Some (dataset (session w)) /\
  length (export_log a) = length (dataset (session w)) /\
  forall j item, dataset (session w) !! j = Some item ->
    exists e, export_log a !! j = Some e /\
      is_exported e =
        passes_filters w j item && forallb (source_exists w) (images item) /\
      (passes_filters w j item = true ->
         has_company out (default "" (grading_company item)) w' /\
         (forallb (source_exists w) (images item) = false ->
            exists x, e = ErrorExporting (id_of item) x)).
Proof.
  unfold export_dataset, mkdir_output, modify.
  set (w0 := set_output out (the_output out w) w).
  assert (Hs0 : session w0 = session w) by done.
  assert (Hf0 : files w0 = files w) by done.
  pose proof (export_loop_spec uuid4 float_str out (dataset (session w0)) 0 w0
                (mkCounters 0 0 [])) as HL.
  destruct (export_loop _ _ _ 0 _ _) as [w1 a].
  destruct HL as (Hs1 & Hf1 & Hd1 & es & Hlog & Hlen & Hes).
  pose proof (write_metadata_spec out w1) as HW.
  destruct (write_metadata out w1) as [w2 r2]. simpl in HW.
  destruct HW as (Hs2 & Hf2 & Hsnap & Hd2). simpl in Hlog. subst es.
  split; [congruence|]. split; [congruence|]. split; [congruence|].
  split; [by rewrite Hlen|].
  intros j item Hj. destruct (Hes j item Hj) as (e & He & Hex & Hp).
  simpl in Hex, Hp.
  rewrite (passes_filters_frame w w0) in Hex, Hp by done.
  rewrite (source_exists_all_frame w w0) in Hex, Hp by done.
  exists e. split_and!; try done.
  intros H. destruct (Hp H) as [Hc Herr]. auto.
Qed.

(** C2, evaluated at a record with the numeric grade 0.  The first record
    of the sample dataset has the grade 0, the grading company PSA and two
    images whose files exist, and is not marked deleted: it meets every
    condition of the claim.  The export skips it with the entry "Missing
    grade or grading company" and does not export it, because the guard
    [not item.get('grade')] tests the truthiness of the grade and not its
    presence, against its own comment "Skip items without grade or grading
    company".  The same happens to a record whose grade the metadata form has
    set to the float 0.0. *)
Lemma export_skips_grade_zero :
  let item := Sample.card (PInt 0) (Some "PSA") ["a.jpg"; "b.jpg"] in
  let log := export_log (export_dataset Sample.uuid4 Sample.float_str "/out"
                           Sample.world).2 in
  let edited := after (update_metadata 1 (PFloat 0) (Some "PSA")) Sample.world in
  dataset (session Sample.world) !! 0 = Some item /\
  (Z.of_nat 0 ∉ deleted_items (session Sample.world)) /\
  grade_set item /\ company_set item /\
  length (images item) = 2 /\
  (forall rel, rel ∈ images item -> source_exists Sample.world rel = true) /\
  log !! 0 = Some (SkippedMissing "L1") /\
  ~ exported_in log 0 /\
  export_log (export_dataset Sample.uuid4 Sample.float_str "/out" edited).2 !! 1
  = Some (SkippedMissing "L1").
Proof.
  simpl. split; [reflexivity|]. split; [set_solver|].
  split; [discriminate|]. split; [by exists "PSA"|]. split; [reflexivity|].
  split.
  { intros rel Hrel. apply list_elem_of_In in Hrel.
    destruct Hrel as [<-|[<-|[]]]; by vm_compute. }
  assert (E : export_log (export_dataset Sample.uuid4 Sample.float_str "/out"
                 Sample.world).2 !! 0 = Some (SkippedMissing "L1"))
    by (by vm_compute).
  split; [exact E|]. split.
  - intros (e & He & Hx). rewrite E in He. by simplify_eq.
  - by vm_compute.
Qed.

(** C6. After any sequence of edits, the snapshot that an export writes to
    [dataset_metadata.json] is the in-memory dataset as the edits left it:
    the same number of records, none filtered out, each with its edited
    image list and metadata.  The export itself does not touch the
    dataset. *)
Theorem export_snapshot_full uuid4 float_str out (edits : list Edit) (w : World) :
  let w1 := after_edits edits w in
  let w2 := (export_dataset uuid4 float_str out w1).1 in
  snapshot out w2 = Some (dataset (session w1)) /\
  length <$> snapshot out w2 = Some (length (dataset (session w1))) /\
  dataset (session w2) = dataset (session w1).
Proof.
  intros w1 w2. subst w2.
  pose proof (export_dataset_spec uuid4 float_str out w1) as H.
  destruct (export_dataset uuid4 float_str out w1) as [w2 a]. simpl.
  destruct H as (Hs & _ & Hsnap & _).
  rewrite Hsnap, Hs. done.
Qed.

(** C10. An item that passes the deletion, grade/company and image-count
    filters has its company directory in the output directory after the
    export, whether or not its images could be copied; when a source file is
    missing the item is logged as an error and the directory is there all
    the same, because it is made before the sources are looked at. *)
Theorem export_company_dir_before_sources uuid4 float_str out w idx item c :
  dataset (session w) !! idx = Some item ->
  Z.of_nat idx ∉ deleted_items (session w) ->
  truthy (grade item) = true ->
  grading_company item = Some c -> c <> "" ->
  length (images item) = 2 ->
  let '(w', a) := export_dataset uuid4 float_str out w in
  has_company out c w' /\
  ((exists rel, rel ∈ images item /\ source_exists w rel = false) ->
   exists x, export_log a !! idx = Some (ErrorExporting (id_of item) x)).
Proof.
  intros Hitem Hdel Hg Hc Hne Hlen.
  pose proof (export_dataset_spec uuid4 float_str out w) as H.
  destruct (export_dataset uuid4 float_str out w) as [w' a].
  destruct H as (_ & _ & _ & _ & H).
  destruct (H idx item Hitem) as (e & He & _ & Hp).
  assert (Hpass : passes_filters w idx item = true).
  { unfold passes_filters, truthy_company. rewrite Hg, Hc, Hlen.
    rewrite bool_decide_eq_false_2 by done. simpl.
    destruct (String.eqb_spec c ""); [done|reflexivity]. }
  destruct (Hp Hpass) as [Hdir Herr]. rewrite Hc in Hdir. split; [done|].
  intros (rel & Hin & Hmiss).
  destruct Herr as [x ->]; [|eauto].
  apply not_true_is_false. rewrite forallb_forall. intros Hall.
  apply list_elem_of_In in Hin. apply Hall in Hin. congruence.
Qed.

Lemma export_company_dir_before_sources_witness :
  let '(w', a) := export_dataset Sample.uuid4 Sample.float_str "/out"
                    Sample.world in
  has_company "/out" "CGC" w' /\
  ((exists rel, rel ∈ ["a.jpg"; "gone.jpg"]
                /\ source_exists Sample.world rel = false) ->
   exists x, export_log a !! 2 = Some (ErrorExporting "L1" x)).
Proof.
  apply (export_company_dir_before_sources Sample.uuid4 Sample.float_str "/out"
           Sample.world 2 (Sample.card (PStr "9") (Some "CGC")
                             ["a.jpg"; "gone.jpg"]) "CGC").
  - reflexivity.
  - simpl. apply not_elem_of_empty.
  - reflexivity.
  - reflexivity.
  - discriminate.
  - reflexivity.
Defined.

(** ** Classifier: filename parsing *)

Import Classifier.

Lemma append_nil_l s : "" +:+ s = s.
Proof. reflexivity. Qed.

Lemma span_spec p : forall s a b,
  span p s = (a, b) ->
  s = a +:+ b /\ all_chars p a = true /\
  match b with EmptyString => True | String c _ => p c = false end.
Proof.
  induction s as [|c r IH]; intros a b; simpl.
  - intros [= <- <-]. done.
  - destruct (p c) eqn:Hc.
    + destruct (span p r) as [a' b'] eqn:E. intros [= <- <-].
      destruct (IH a' b' eq_refl) as (-> & Ha & Hb).
      simpl. by rewrite Hc, Ha.
    + intros [= <- <-]. simpl. by rewrite Hc.
Qed.

Lemma span_app p : forall a b,
  all_chars p a = true ->
  match b with EmptyString => True | String c _ => p c = false end ->
  span p (a +:+ b) = (a, b).
Proof.
  induction a as [|c a IH]; intros b Ha Hb; simpl.
  - destruct b as [|c r]; simpl; [done|]. by rewrite Hb.
  - simpl in Ha. apply andb_true_iff in Ha as [Hc Ha].
    by rewrite Hc, (IH b Ha Hb).
Qed.

Lemma take_plus_spec p s a b :
  take_plus p s = Some (a, b) ->
  s = a +:+ b /\ a <> "" /\ all_chars p a = true /\
  match b with EmptyString => True | String c _ => p c = false end.
Proof.
  unfold take_plus. destruct (span p s) as [a' b'] eqn:E.
  apply span_spec in E as (-> & Ha & Hb).
  destruct a' as [|c a']; [done|]. intros [= <- <-]. done.
Qed.

Lemma take_plus_app p a b :
  a <> "" -> all_chars p a = true ->
  match b with EmptyString => True | String c _ => p c = false end ->
  take_plus p (a +:+ b) = Some (a, b).
Proof.
  intros Hne Ha Hb. unfold take_plus. rewrite (span_app p a b Ha Hb).
  by destruct a.
Qed.

Lemma expect_spec c s r : expect c s = Some r <-> s = String c r.
Proof.
  unfold expect. destruct s as [|c' s]; [by split|].
  destruct (Ascii.eqb_spec c' c) as [->|Hne]; split; intros [=]; by subst.
Qed.

Lemma take_literal_sound : forall lit s m rest,
  take_literal lit s = Some (m, rest) -> s = m +:+ rest /\ lower m = lit.
Proof.
  induction lit as [|a lit IH]; intros s m rest; simpl.
  - intros [= <- <-]. done.
  - destruct s as [|c r]; [done|].
    destruct (Ascii.eqb_spec (to_lower c) a) as [<-|Hne]; [|done].
    destruct (take_literal lit r) as [[m' rest']|] eqn:E; [|done].
    intros [= <- <-]. apply IH in E as [-> <-]. done.
Qed.

Lemma take_literal_complete : forall m rest,
  take_literal (lower m) (m +:+ rest) = Some (m, rest).
Proof.
  induction m as [|c m IH]; intros rest; simpl; [done|].
  by rewrite Ascii.eqb_refl, IH.
Qed.

Lemma take_literal_mismatch a lit c m rest :
  to_lower c <> a -> take_literal (String a lit) (String c m +:+ rest) = None.
Proof.
  intros Hne. simpl. by destruct (Ascii.eqb_spec (to_lower c) a).
Qed.

Lemma take_side_spec s m rest :
  take_side s = Some (m, rest) <->
  (s = m +:+ rest /\ (lower m = "front" \/ lower m = "back")).
Proof.
  unfold take_side. split.
  - destruct (take_literal "front" s) as [[m' rest']|] eqn:E.
    + intros [= <- <-]. apply take_literal_sound in E as [-> Hm]. auto.
    + intros E'. apply take_literal_sound in E' as [-> Hm]. auto.
  - intros [-> [Hm|Hm]].
    + rewrite <- Hm at 1. by rewrite take_literal_complete.
    + destruct m as [|c m]; [done|]. simpl in Hm.
      rewrite take_literal_mismatch by (injection Hm as -> _; done).
      rewrite <- Hm. exact (take_literal_complete (String c m) rest).
Qed.

Lemma at_end_spec s :
  at_end s = true <-> (s = "" \/ s = String newline "").
Proof.
  unfold at_end. destruct s as [|c [|c' s]].
  - split; auto.
  - destruct (Ascii.eqb_spec c newline) as [->|Hne].
    + split; auto.
    + split; [done|]. intros [H|H]; [done|]. by injection H.
  - split; [done|]. intros [H|H]; done.
Qed.

(** [re.IGNORECASE] does not widen the grade and the extension classes, and
    adds the upper-case letters A to F to the identifier class. *)
Lemma ignorecase_grade c : ignorecase cls_grade c = cls_grade c.
Proof. destruct c as [[] [] [] [] [] [] [] []]; reflexivity. Qed.

Lemma ignorecase_word c : ignorecase cls_word c = cls_word c.
Proof. destruct c as [[] [] [] [] [] [] [] []]; reflexivity. Qed.

Lemma ignorecase_hex c :
  ignorecase cls_hex c = is_digit c || in_range 97 102 c || in_range 65 70 c.
Proof. destruct c as [[] [] [] [] [] [] [] []]; reflexivity. Qed.

Lemma all_chars_ext p q s :
  (forall c, p c = q c) -> all_chars p s = all_chars q s.
Proof. intros H. induction s as [|c s IH]; simpl; [done|]. by rewrite H, IH. Qed.

(** C4, as the code has it, for filenames made of ASCII characters.  On such
    a name [parse_filename] returns [(grade, unique_id, side, extension)]
    exactly when the name is [GRADE_UNIQUEID_SIDE.EXT], possibly followed by
    one final newline, in which GRADE is one or more characters, each a digit
    or a dot (any number of dots), UNIQUEID is one or more hex digits of
    either case, SIDE is [front] or [back] in any case and is returned in
    lower case, and EXT is one or more word characters (letters, digits,
    underscore).  Names with characters outside ASCII are left out. *)
Theorem parse_filename_language (filename g u s e : string) :
  is_ascii filename = true ->
  (parse_filename filename = Some (g, u, s, e) <->
   matches_pattern filename g u s e).
Proof.
  intros _. unfold parse_filename, matches_pattern. split.
  - destruct (take_plus (ignorecase cls_grade) filename) as [[g' r1]|] eqn:E1;
      simpl; [|done].
    destruct (expect "_" r1) as [r2|] eqn:E2; simpl; [|done].
    destruct (take_plus (ignorecase cls_hex) r2) as [[u' r3]|] eqn:E3;
      simpl; [|done].
    destruct (expect "_" r3) as [r4|] eqn:E4; simpl; [|done].
    destruct (take_side r4) as [[side r5]|] eqn:E5; simpl; [|done].
    destruct (expect "." r5) as [r6|] eqn:E6; simpl; [|done].
    destruct (take_plus (ignorecase cls_word) r6) as [[e' r7]|] eqn:E7;
      simpl; [|done].
    destruct (at_end r7) eqn:E8; [|done].
    intros [= <- <- <- <-].
    apply take_plus_spec in E1 as (-> & Hg & Hgc & _).
    apply expect_spec in E2 as ->.
    apply take_plus_spec in E3 as (-> & Hu & Huc & _).
    apply expect_spec in E4 as ->.
    apply take_side_spec in E5 as (-> & Hside).
    apply expect_spec in E6 as ->.
    apply take_plus_spec in E7 as (-> & He & Hec & _).
    apply at_end_spec in E8.
    exists side, r7. split_and!; try done.
    + by rewrite <- (all_chars_ext _ _ _ ignorecase_grade).
    + by rewrite <- (all_chars_ext _ _ _ ignorecase_word).
  - intros (side & tail & -> & Hg & Hgc & Hu & Huc & Hside & -> & He & Hec & Ht).
    rewrite (take_plus_app _ g); [|done| |done].
    2: by rewrite (all_chars_ext _ _ _ ignorecase_grade).
    simpl. rewrite append_nil_l.
    rewrite (take_plus_app _ u); [|done|done|reflexivity].
    simpl. rewrite append_nil_l.
    rewrite (proj2 (take_side_spec _ side _)) by done.
    simpl. rewrite append_nil_l.
    rewrite (take_plus_app _ e); [|done| |].
    + simpl. by rewrite (proj2 (at_end_spec tail)).
    + by rewrite (all_chars_ext _ _ _ ignorecase_word).
    + by destruct Ht as [->| ->].
Qed.

Lemma parse_filename_language_witness :
  is_ascii "10.0_C5338e15_BACK.JPG" = true /\
  (parse_filename "10.0_C5338e15_BACK.JPG"
     = Some ("10.0", "C5338e15", "back", "JPG") <->
   matches_pattern "10.0_C5338e15_BACK.JPG" "10.0" "C5338e15" "back" "JPG").
Proof.
  split; [reflexivity|].
  apply (parse_filename_language "10.0_C5338e15_BACK.JPG"
           "10.0" "C5338e15" "back" "JPG").
  reflexivity.
Defined.

(** C4 as stated fails on the code: a grade with two dots and an
    identifier in upper-case hex are parsed, although neither name has the
    form that the specification gives. *)
Lemma parse_filename_grammar_counterexample :
  parse_filename "1.2.3_ab12_front.jpg" = Some ("1.2.3", "ab12", "front", "jpg")
  /\ ~ spec_form "1.2.3_ab12_front.jpg"
  /\ parse_filename "10_AB12_back.jpg" = Some ("10", "AB12", "back", "jpg")
  /\ ~ spec_form "10_AB12_back.jpg".
Proof.
  split; [reflexivity|]. split.
  { intros (g & u & side & e & Hf & Hg & _).
    unfold spec_grade in Hg. apply andb_true_iff in Hg as [Hg Hdots].
    apply andb_true_iff in Hg as [Hgc _].
    assert (E : span cls_grade "1.2.3_ab12_front.jpg"
                = (g, "_" +:+ u +:+ "_" +:+ side +:+ "." +:+ e))
      by (rewrite Hf; by apply span_app).
    vm_compute in E. injection E as <- _. by vm_compute in Hdots. }
  split; [reflexivity|].
  intros (g & u & side & e & Hf & Hg & Hu & Huc & _).
  unfold spec_grade in Hg. apply andb_true_iff in Hg as [Hg _].
  apply andb_true_iff in Hg as [Hgc _].
  assert (E : span cls_grade "10_AB12_back.jpg"
              = (g, "_" +:+ u +:+ "_" +:+ side +:+ "." +:+ e))
    by (rewrite Hf; by apply span_app).
  vm_compute in E. injection E as <- E.
  assert (E' : span cls_hex "AB12_back.jpg"
               = (u, "_" +:+ side +:+ "." +:+ e))
    by (rewrite E; by apply span_app).
  vm_compute in E'. injection E' as <- _. done.
Qed.

(** ** Classifier: directory scan *)

Lemma set_side_fields s n p :
  grade (set_side s n p) = grade p /\
  unique_id (set_side s n p) = unique_id p /\
  extension (set_side s n p) = extension p.
Proof. unfold set_side. by destruct (String.eqb s "front"). Qed.

Lemma first_accepted_snoc scanned file u g e :
  first_accepted scanned u g e -> first_accepted (scanned ++ [file]) u g e.
Proof.
  intros (pre & f & post & s & -> & Hacc & Hpre).
  exists pre, f, (post ++ [file]), s. split_and!; try done.
  by rewrite <- app_assoc.
Qed.

Lemma scan_step_inv scanned d file :
  scan_inv scanned d -> scan_inv (scanned ++ [file]) (scan_step d file).
Proof.
  intros [Hnone Hsome]. unfold scan_step.
  destruct (accepted file) as [[[[g u] s] e]|] eqn:Hacc.
  - assert (Huid : uid_of file = Some u) by (unfold uid_of; by rewrite Hacc).
    split.
    + intros u' Hu' f Hf.
      destruct (decide (u' = u)) as [->|Hne].
      * exfalso. rewrite lookup_alter_eq in Hu'.
        destruct (d !! u) eqn:Hd.
        -- by rewrite Hd in Hu'.
        -- by rewrite lookup_insert_eq in Hu'.
      * rewrite lookup_alter_ne in Hu' by done.
        assert (Hd : d !! u' = None).
        { destruct (d !! u); [done|]. by rewrite lookup_insert_ne in Hu'. }
        apply elem_of_app in Hf as [Hf|Hf]; [by eapply Hnone|].
        apply list_elem_of_singleton in Hf as ->. rewrite Huid. congruence.
    + intros u' p Hp.
      destruct (decide (u' = u)) as [->|Hne].
      * rewrite lookup_alter_eq in Hp.
        destruct (d !! u) as [p0|] eqn:Hd.
        -- rewrite Hd in Hp. simpl in Hp. injection Hp as <-.
           destruct (set_side_fields s (name file) p0) as (-> & -> & ->).
           destruct (Hsome u p0 Hd) as [Hk Hfirst].
           split; [done|]. by apply first_accepted_snoc.
        -- rewrite lookup_insert_eq in Hp. simpl in Hp. injection Hp as <-.
           destruct (set_side_fields s (name file) (mkPair g u e None None))
             as (-> & -> & ->). simpl.
           split; [done|].
           exists scanned, file, [], s. split_and!; try done.
           intros f Hf. by eapply Hnone.
      * rewrite lookup_alter_ne in Hp by done.
        assert (Hd : d !! u' = Some p).
        { destruct (d !! u); [done|]. by rewrite lookup_insert_ne in Hp. }
        destruct (Hsome u' p Hd) as [Hk Hfirst].
        split; [done|]. by apply first_accepted_snoc.
  - assert (Huid : uid_of file = None) by (unfold uid_of; by rewrite Hacc).
    split.
    + intros u Hu f Hf.
      apply elem_of_app in Hf as [Hf|Hf]; [by eapply Hnone|].
      apply list_elem_of_singleton in Hf as ->. by rewrite Huid.
    + intros u p Hp. destruct (Hsome u p Hp) as [Hk Hfirst].
      split; [done|]. by apply first_accepted_snoc.
Qed.

Lemma scan_loop_inv : forall rest scanned d,
  scan_inv scanned d -> scan_inv (scanned ++ rest) (foldl scan_step d rest).
Proof.
  induction rest as [|file rest IH]; intros scanned d Hinv; simpl.
  - by rewrite app_nil_r.
  - replace (scanned ++ file :: rest) with ((scanned ++ [file]) ++ rest)
      by (by rewrite <- app_assoc).
    apply IH. by apply scan_step_inv.
Qed.

Lemma scan_inv_listing listing : scan_inv listing (scan listing).
Proof.
  apply (scan_loop_inv listing [] ∅). split.
  - intros u _ f Hf. by apply elem_of_nil in Hf.
  - intros u p Hp. by rewrite lookup_empty in Hp.
Qed.

Lemma pairs_of_lookup d p :
  p ∈ pairs_of d -> exists u, d !! u = Some p.
Proof.
  unfold pairs_of. rewrite merge_sort_Permutation.
  intros Hp. apply list_elem_of_filter in Hp as [_ Hp].
  apply list_elem_of_fmap in Hp as ([u p'] & -> & Hp).
  apply elem_of_map_to_list in Hp. eauto.
Qed.

(** C3, as the code has it.  A card pair built by the scan carries the
    grade and the extension of the first directory entry that the scan
    accepted under the pair's identifier: the shared slots are filled when
    the identifier is first seen, and the entries seen later only fill in
    their side. *)
Theorem scan_keeps_first_extension (listing : list DirEntry) (p : CardPair) :
  p ∈ pairs_of (scan listing) ->
  first_accepted listing (unique_id p) (grade p) (extension p).
Proof.
  intros Hp. apply pairs_of_lookup in Hp as [u Hu].
  destruct (scan_inv_listing listing) as [_ Hsome].
  destruct (Hsome u p Hu) as [<- Hfirst]. done.
Qed.

Lemma scan_sample_pairs :
  pairs_of (scan SampleCards.listing) = [SampleCards.pair].
Proof. by vm_compute. Qed.

Lemma scan_keeps_first_extension_witness :
  first_accepted SampleCards.listing "ab12" "10" "jpg".
Proof.
  apply (scan_keeps_first_extension SampleCards.listing SampleCards.pair).
  rewrite scan_sample_pairs. apply list_elem_of_here.
Defined.

(** C3 as stated fails on the code: with the front scanned first as
    [.jpg] and the back scanned last as [.png], the pair records [jpg], the
    extension of the side scanned first, not that of the side scanned
    last. *)
Lemma scan_last_extension_counterexample :
  let listing := [ mkEntry "10_ab12_front.jpg" true;
                   mkEntry "10_ab12_back.png" true ] in
  accepted (mkEntry "10_ab12_back.png" true) = Some ("10", "ab12", "back", "png")
  /\ extension <$> pairs_of (scan listing) = ["jpg"]
  /\ extension <$> pairs_of (scan listing) <> ["png"].
Proof. split; [by vm_compute|]. split; by vm_compute. Qed.

(** ** Classifier: classification *)

(** The three ways a call of [rename_card_pair] on a well-formed pair can
    go. *)
Lemma rename_card_pair_run rename_file w ref g p sd f b :
  card_pairs (state w) !! ref = Some p ->
  source_dir (state w) = Some sd ->
  front p = Some f -> back p = Some b ->
  rename_card_pair rename_file ref g w =
    match rename_file (dir w) f (new_name g p "front") with
    | Raise _ => (w, Ok false)
    | Ok d1 =>
        match rename_file d1 b (new_name g p "back") with
        | Raise _ => (mkWorld (state w) d1, Ok false)
        | Ok d2 =>
            (mkWorld
               (Classifier.advance
                  (incr_classified
                     (set_card_pair ref
                        (mkPair g (unique_id p) (extension p)
                                (Some (new_name g p "front"))
                                (Some (new_name g p "back")))
                        (state w))))
               d2, Ok true)
        end
    end.
Proof.
  intros Hp Hsd Hf Hb.
  unfold rename_card_pair, bind, get, lift, try_except, rename, on_state,
    modify, ret, require. simpl.
  rewrite Hp, Hsd, Hf, Hb. simpl.
  destruct (rename_file (dir w) f (new_name g p "front")) as [d1|e1]; [|done].
  simpl.
  destruct (rename_file d1 b (new_name g p "back")) as [d2|e2]; done.
Qed.

(** C9. When either rename raises, [rename_card_pair] returns [False] and
    the session state is what it was: the pair's grade, front and back, the
    classified counter and the cursor are untouched. *)
Theorem rename_card_pair_error_keeps_state
    (rename_file : Directory -> string -> string -> Res Directory)
    (w : Classifier.World) (ref : nat) (g : string) (p : CardPair)
    (sd f b : string) :
  card_pairs (state w) !! ref = Some p ->
  source_dir (state w) = Some sd ->
  front p = Some f -> back p = Some b ->
  (is_ok (rename_file (dir w) f (new_name g p "front")) = false \/
   exists d1, rename_file (dir w) f (new_name g p "front") = Ok d1 /\
              is_ok (rename_file d1 b (new_name g p "back")) = false) ->
  exists w', rename_card_pair rename_file ref g w = (w', Ok false) /\
             state w' = state w.
Proof.
  intros Hp Hsd Hf Hb Hfail.
  rewrite (rename_card_pair_run rename_file w ref g p sd f b) by done.
  destruct Hfail as [H1|(d1 & H1 & H2)].
  - destruct (rename_file (dir w) f _); [done|]. eauto.
  - rewrite H1. destruct (rename_file d1 b _); [done|]. eauto.
Qed.

Lemma rename_card_pair_error_keeps_state_witness :
  exists w', rename_card_pair posix_rename 0 "10m" SampleCards.world
             = (w', Ok false) /\
             state w' = state SampleCards.world.
Proof.
  apply (rename_card_pair_error_keeps_state posix_rename SampleCards.world 0
           "10m" SampleCards.pair "/cards"
           "10_ab12_front.jpg" "10_ab12_back.png").
  - reflexivity.
  - reflexivity.
  - reflexivity.
  - reflexivity.
  - right. eexists. split; [by vm_compute|by vm_compute].
Defined.




(** * Further properties *)

(** ** Curation: the export log *)

Import Curation.

Lemma first_failure_frame w w' imgs :
  session w' = session w -> files w' = files w ->
  first_failure w' imgs = first_failure w imgs.
Proof.
  intros Hs Hf. induction imgs as [|rel rest IH]; simpl; [done|].
  by rewrite Hs, Hf, IH.
Qed.

Lemma log_entry_frame uuid4 w w' idx item :
  session w' = session w -> files w' = files w ->
  log_entry uuid4 w' idx item = log_entry uuid4 w idx item.
Proof.
  intros Hs Hf. unfold log_entry.
  by rewrite Hs, (first_failure_frame w w').
Qed.

Lemma log_entries_frame uuid4 w w' items : forall idx,
  session w' = session w -> files w' = files w ->
  log_entries uuid4 w' idx items = log_entries uuid4 w idx items.
Proof.
  induction items as [|item rest IH]; intros idx Hs Hf; simpl; [done|].
  by rewrite IH, (log_entry_frame uuid4 w w').
Qed.

(** The copy loop stops with the first failure, if there is one. *)
Lemma copy_images_result uuid_ g out c : forall imgs k w,
  (copy_images out c g uuid_ k imgs w).2 =
    match first_failure w imgs with
    | None => Ok tt
    | Some e => Raise e
    end.
Proof.
  induction imgs as [|rel rest IH]; intros k w; simpl; [done|].
  unfold bind at 1. unfold get_full_image_path at 1, bind at 1, get at 1.
  destruct (base_path (session w)) as [base|] eqn:Hb; simpl; [|done].
  unfold bind at 1, get at 1. unfold bind at 1.
  destruct (bool_decide (is_Some (files w !! path_join base rel))) eqn:Hex;
    simpl; [|done].
  apply bool_decide_eq_true in Hex.
  unfold bind at 1.
  pose proof (copy2_spec (path_join base rel) out c
    (g +:+ "_" +:+ uuid_ +:+ "_" +:+ (if (k =? 0)%nat then "front" else "back")
       +:+ suffix (basename (path_join base rel))) w) as Hc.
  destruct (copy2 _ _ _ _ w) as [w1 r1].
  destruct Hc as (Hs1 & Hf1 & _ & Hr1). rewrite (Hr1 Hex).
  rewrite IH. by rewrite (first_failure_frame w w1).
Qed.

Lemma export_item_entry uuid4 float_str out idx item w a :
  (export_item uuid4 float_str out idx item (w, a)).2
  = record_entry a (log_entry uuid4 w idx item).
Proof.
  unfold export_item, log_entry, record_entry.
  destruct (bool_decide (Z.of_nat idx ∈ deleted_items (session w))); [done|].
  destruct (negb (truthy (grade item)) || negb (truthy_company item)); [done|].
  destruct (negb (length (images item) =? 2)%nat); [done|].
  pose proof (mkdir_company_spec out (default "" (grading_company item)) w) as Hm.
  destruct (mkdir_company out (default "" (grading_company item)) w) as [w1 r1].
  simpl in Hm. destruct Hm as (Hs1 & Hf1 & _).
  pose proof (copy_images_result (uuid4 idx) (py_str float_str (grade item)) out
    (default "" (grading_company item)) (images item) 0 w1) as Hr.
  destruct (copy_images _ _ _ _ 0 (images item) w1) as [w2 r2]. simpl in Hr.
  rewrite (first_failure_frame w w1) in Hr by done. subst r2.
  by destruct (first_failure w (images item)).
Qed.

Lemma export_loop_tally uuid4 float_str out : forall items k w a,
  (export_loop uuid4 float_str out k items (w, a)).2
  = tally (log_entries uuid4 w k items) a.
Proof.
  induction items as [|item rest IH]; intros k w a; cbn [export_loop]; [done|].
  pose proof (export_item_spec uuid4 float_str out k item w a) as H1.
  pose proof (export_item_entry uuid4 float_str out k item w a) as H2.
  destruct (export_item uuid4 float_str out k item (w, a)) as [w1 a1].
  destruct H1 as (Hs1 & Hf1 & _). simpl in H2. subst a1.
  rewrite IH. by rewrite (log_entries_frame uuid4 w w1).
Qed.

Lemma tally_counters es : forall a,
  export_log (tally es a) = export_log a ++ es /\
  exported_count (tally es a)
  = exported_count a + length (filter (fun e => is_exported e = true) es) /\
  skipped_count (tally es a)
  = skipped_count a + length (filter (fun e => is_exported e = false) es).
Proof.
  induction es as [|e es IH]; intros a.
  { simpl. rewrite app_nil_r. split_and!; try done; simpl; lia. }
  unfold tally. simpl. fold (tally es (record_entry a e)).
  destruct (IH (record_entry a e)) as (Hl & He & Hs).
  rewrite Hl, He, Hs. unfold record_entry.
  rewrite !filter_cons.
  destruct (is_exported e) eqn:E; simpl.
  all: split_and!; [by rewrite <- app_assoc | lia | lia].
Qed.

Lemma export_dataset_counters uuid4 float_str out w :
  (export_dataset uuid4 float_str out w).2
  = tally (log_entries uuid4 w 0 (dataset (session w))) (mkCounters 0 0 []).
Proof.
  unfold export_dataset, mkdir_output, modify.
  set (w0 := set_output out (the_output out w) w).
  pose proof (export_loop_tally uuid4 float_str out (dataset (session w0)) 0 w0
                (mkCounters 0 0 [])) as HL.
  destruct (export_loop _ _ _ 0 _ _) as [w1 a]. simpl in HL.
  destruct (write_metadata out w1) as [w2 r2]. simpl. rewrite HL.
  by rewrite (log_entries_frame uuid4 w w0).
Qed.

Lemma log_entries_length uuid4 w items : forall idx,
  length (log_entries uuid4 w idx items) = length items.
Proof. induction items as [|i r IH]; intros idx; simpl; [done|]. by rewrite IH. Qed.

Lemma log_entries_lookup uuid4 w items : forall idx j item,
  items !! j = Some item ->
  log_entries uuid4 w idx items !! j = Some (log_entry uuid4 w (idx + j) item).
Proof.
  induction items as [|i r IH]; intros idx j item Hj; [done|].
  destruct j as [|j]; simpl in *.
  - simplify_eq. by rewrite Nat.add_0_r.
  - rewrite (IH (S idx) j item Hj). do 2 f_equal. lia.
Qed.

Lemma log_entry_exported uuid4 w idx item :
  is_exported (log_entry uuid4 w idx item)
  = passes_filters w idx item && forallb (source_exists w) (images item).
Proof.
  unfold log_entry, passes_filters.
  destruct (bool_decide (Z.of_nat idx ∈ deleted_items (session w))); [done|].
  destruct (truthy (grade item)); [|done].
  destruct (truthy_company item); [|done].
  destruct (length (images item) =? 2)%nat; [|done]. simpl.
  induction (images item) as [|rel rest IH]; simpl; [done|].
  unfold source_exists at 1.
  destruct (base_path (session w)) as [base|]; [|done].
  destruct (bool_decide (is_Some (files w !! path_join base rel))); [|done].
  exact IH.
Qed.

(** X1. Every item has its entry in the export log, at its own position,
    and the entry tells what happened to the item: "Marked for deletion"
    is written only for an item in the deleted set; "Missing grade or
    grading company" only for an item outside it whose grade or company is
    falsy; "Need exactly 2 images" only for an item that passed these two
    tests and has another number of images; "Exported ... as <id>" only for
    an item that passed all three filters and whose source files all exist,
    with the identifier drawn for it; "Error exporting" only for an item
    that passed all three filters. *)
Theorem export_log_explains_outcome uuid4 float_str out (w : World)
    (idx : nat) (item : DatasetItem) :
  dataset (session w) !! idx = Some item ->
  exists e,
    export_log (export_dataset uuid4 float_str out w).2 !! idx = Some e /\
    match e with
    | SkippedDeleted id =>
        id = id_of item /\ Z.of_nat idx ∈ deleted_items (session w)
    | SkippedMissing id =>
        id = id_of item /\ (Z.of_nat idx ∉ deleted_items (session w)) /\
        (truthy (grade item) = false \/ truthy_company item = false)
    | SkippedImages id =>
        id = id_of item /\ (Z.of_nat idx ∉ deleted_items (session w)) /\
        truthy (grade item) = true /\ truthy_company item = true /\
        length (images item) <> 2
    | Exported id unique_id =>
        id = id_of item /\ unique_id = uuid4 idx /\
        passes_filters w idx item = true /\
        (forall rel, rel ∈ images item -> source_exists w rel = true)
    | ErrorExporting id _ =>
        id = id_of item /\ passes_filters w idx item = true
    end.
Proof.
  intros Hitem. rewrite export_dataset_counters.
  destruct (tally_counters (log_entries uuid4 w 0 (dataset (session w)))
              (mkCounters 0 0 [])) as (-> & _). simpl.
  exists (log_entry uuid4 w idx item). split.
  { by rewrite (log_entries_lookup uuid4 w _ 0 idx item Hitem). }
  pose proof (log_entry_exported uuid4 w idx item) as Hx.
  unfold log_entry, passes_filters in *.
  destruct (bool_decide (Z.of_nat idx ∈ deleted_items (session w))) eqn:Hd.
  { split; [done|]. by apply bool_decide_eq_true in Hd. }
  apply bool_decide_eq_false in Hd.
  destruct (truthy (grade item)) eqn:Hg; simpl in *; [|by auto].
  destruct (truthy_company item) eqn:Hc; simpl in *; [|by auto].
  destruct (length (images item) =? 2)%nat eqn:Hn; simpl in *.
  2: { apply Nat.eqb_neq in Hn. by auto. }
  destruct (first_failure w (images item)) as [e|]; simpl in *; [done|].
  split; [done|]. split; [done|]. split; [done|].
  intros rel Hrel. symmetry in Hx.
  rewrite forallb_forall in Hx. apply Hx. by apply list_elem_of_In.
Qed.

Lemma export_log_explains_outcome_witness :
  exists e,
    export_log (export_dataset Sample.uuid4 Sample.float_str "/out"
                  Sample.world).2 !! 1 = Some e /\
    match e with
    | SkippedDeleted id =>
        id = "L1" /\ Z.of_nat 1 ∈ deleted_items (session Sample.world)
    | SkippedMissing id =>
        id = "L1" /\ (Z.of_nat 1 ∉ deleted_items (session Sample.world)) /\
        (truthy (PInt 10) = false \/
         truthy_company
           (Sample.card (PInt 10) (Some "PSA") ["a.jpg"; "b.png"]) = false)
    | SkippedImages id =>
        id = "L1" /\ (Z.of_nat 1 ∉ deleted_items (session Sample.world)) /\
        truthy (PInt 10) = true /\
        truthy_company
          (Sample.card (PInt 10) (Some "PSA") ["a.jpg"; "b.png"]) = true /\
        length ["a.jpg"; "b.png"] <> 2
    | Exported id unique_id =>
        id = "L1" /\ unique_id = Sample.uuid4 1 /\
        passes_filters Sample.world 1
          (Sample.card (PInt 10) (Some "PSA") ["a.jpg"; "b.png"]) = true /\
        (forall rel, rel ∈ ["a.jpg"; "b.png"] ->
                     source_exists Sample.world rel = true)
    | ErrorExporting id _ =>
        id = "L1" /\
        passes_filters Sample.world 1
          (Sample.card (PInt 10) (Some "PSA") ["a.jpg"; "b.png"]) = true
    end.
Proof.
  apply (export_log_explains_outcome Sample.uuid4 Sample.float_str "/out"
           Sample.world 1
           (Sample.card (PInt 10) (Some "PSA") ["a.jpg"; "b.png"])).
  reflexivity.
Defined.

(** X2. Every item is counted once: the exported and skipped counts add up
    to the number of items, and the exported count is the number of
    "Exported" entries of the log. *)
Theorem export_counts_partition uuid4 float_str out (w : World) :
  let a := (export_dataset uuid4 float_str out w).2 in
  exported_count a + skipped_count a = length (dataset (session w)) /\
  length (export_log a) = length (dataset (session w)) /\
  exported_count a
  = length (filter (fun e => is_exported e = true) (export_log a)).
Proof.
  intros a. subst a. rewrite export_dataset_counters.
  set (es := log_entries uuid4 w 0 (dataset (session w))).
  destruct (tally_counters es (mkCounters 0 0 [])) as (Hl & He & Hs).
  rewrite Hl, He, Hs. simpl.
  assert (Hlen : length es = length (dataset (session w)))
    by apply log_entries_length.
  split_and!; [|done|done].
  rewrite <- Hlen. clear.
  induction es as [|e es IH]; simpl; [done|].
  rewrite !filter_cons. destruct (is_exported e); simpl; lia.
Qed.

(** X3. The export never reports more exported items than the "Ready to
    Export" metric of the sidebar announces. *)
Theorem export_at_most_ready uuid4 float_str out (w : World) :
  exported_count (export_dataset uuid4 float_str out w).2 <= valid_count w.
Proof.
  rewrite export_dataset_counters.
  destruct (tally_counters (log_entries uuid4 w 0 (dataset (session w)))
              (mkCounters 0 0 [])) as (_ & -> & _). simpl.
  unfold valid_count.
  assert (G : forall items k,
    length (filter (fun e => is_exported e = true) (log_entries uuid4 w k items))
      <= count_valid w k items).
  { induction items as [|item rest IH]; intros k; simpl; [done|].
    rewrite filter_cons, log_entry_exported. specialize (IH (S k)).
    destruct (passes_filters w k item); simpl; [|done].
    destruct (forallb (source_exists w) (images item)); simpl; lia. }
  apply G.
Qed.

Lemma delete_listing_sets (w : World) (i : Z) :
  let w' := after (delete_listing i) w in
  dataset (session w') = dataset (session w) /\
  deleted_items (session w') = {[i]} ∪ deleted_items (session w) /\
  modified_items (session w') = modified_items (session w) ∖ {[i]} /\
  files w' = files w /\ outputs w' = outputs w.
Proof.
  unfold after, delete_listing, bind, get, on_session, modify, ret. simpl.
  destruct (bool_decide (i ∈ modified_items (session w))) eqn:Hm; simpl;
    unfold advance; simpl.
  all: destruct (current_index (session w) <? _)%Z; simpl.
  all: split_and!; try done.
  all: apply bool_decide_eq_false in Hm.
  all: apply set_eq; intros x;
       rewrite elem_of_difference, elem_of_singleton; split;
       [intros Hx; split; [done|congruence] | tauto].
Qed.

(** X4. A listing marked for deletion is never exported: after
    [delete_listing], an export logs the item as skipped for deletion,
    whatever its grade, company and images are. *)
Theorem deleted_listing_is_skipped uuid4 float_str out (w : World)
    (idx : nat) (item : DatasetItem) :
  dataset (session w) !! idx = Some item ->
  export_log (export_dataset uuid4 float_str out
                (after (delete_listing (Z.of_nat idx)) w)).2 !! idx
  = Some (SkippedDeleted (id_of item)).
Proof.
  intros Hitem.
  destruct (delete_listing_sets w (Z.of_nat idx)) as (Hd & Hdel & _).
  set (w1 := after (delete_listing (Z.of_nat idx)) w) in *.
  rewrite export_dataset_counters.
  destruct (tally_counters (log_entries uuid4 w1 0 (dataset (session w1)))
              (mkCounters 0 0 [])) as (-> & _). simpl.
  rewrite (log_entries_lookup uuid4 w1 _ 0 idx item) by (by rewrite Hd).
  simpl. unfold log_entry.
  rewrite bool_decide_eq_true_2; [done|].
  rewrite Hdel. apply elem_of_union_l. by apply elem_of_singleton.
Qed.

Lemma deleted_listing_is_skipped_witness :
  export_log (export_dataset Sample.uuid4 Sample.float_str "/out"
                (after (delete_listing (Z.of_nat 1)) Sample.world)).2 !! 1
  = Some (SkippedDeleted "L1").
Proof.
  apply (deleted_listing_is_skipped Sample.uuid4 Sample.float_str "/out"
           Sample.world 1 (Sample.card (PInt 10) (Some "PSA") ["a.jpg"; "b.png"])).
  reflexivity.
Defined.

(** ** Curation: edits and the dataset *)

Lemma list_swap_Permutation {A} (l : list A) p q x y :
  l !! p = Some x -> l !! q = Some y -> <[q:=x]> (<[p:=y]> l) ≡ₚ l.
Proof.
  intros Hx Hy.
  destruct (decide (p = q)) as [->|Hne].
  { simplify_eq. rewrite list_insert_insert_eq. by rewrite list_insert_id. }
  apply Permutation_inj. split; [by rewrite !length_insert|].
  exists (fun j => if decide (j = p) then q else if decide (j = q) then p else j).
  split.
  - intros j1 j2. repeat case_decide; congruence.
  - intros j. repeat case_decide; subst.
    + rewrite list_lookup_insert_ne by done.
      rewrite list_lookup_insert_eq; [done|]. by eapply lookup_lt_Some.
    + rewrite list_lookup_insert_eq; [done|].
      rewrite length_insert. by eapply lookup_lt_Some.
    + by rewrite !list_lookup_insert_ne by done.
Qed.

(** A call of [delete_image] either leaves the world alone (the item index
    or a too negative image index raises, the image index is at or beyond
    the length, the base path is unset) or removes one image. *)
Lemma delete_image_cases (w : World) (i k : Z) :
  after (delete_image i k) w = w \/
  exists n item p rel base,
    py_norm (length (dataset (session w))) i = Some n /\
    dataset (session w) !! n = Some item /\
    (k < Z.of_nat (length (images item)))%Z /\
    py_norm (length (images item)) k = Some p /\
    images item !! p = Some rel /\
    base_path (session w) = Some base /\
    after (delete_image i k) w =
      mkWorld
        (add_modified i
          (set_dataset
            (<[n := with_images (delete p (images item)) item]>
               (dataset (session w)))
            (session w)))
        (delete (path_join base rel) (files w)) (outputs w).
Proof.
  unfold after, delete_image, bind, get, lift. simpl.
  destruct (py_getitem (dataset (session w)) i) as [item|] eqn:Hit; [|by left].
  simpl. destruct (k <? Z.of_nat (length (images item)))%Z eqn:Hk; [|by left].
  destruct (py_getitem (images item) k) as [rel|] eqn:Hrel; [|by left].
  simpl. unfold get_full_image_path, bind, get. simpl.
  destruct (base_path (session w)) as [base|] eqn:Hb; [|by left].
  apply py_getitem_Ok in Hit as (n & Hn & Hitem).
  apply py_getitem_Ok in Hrel as (p & Hp & Hrel).
  right. exists n, item, p, rel, base.
  split_and!; try done; [by apply Z.ltb_lt|].
  unfold ret. simpl. unfold py_pop. rewrite Hp.
  rewrite <- delete_take_drop.
  destruct (bool_decide (is_Some (files w !! path_join base rel))) eqn:Hex;
    simpl; unfold store_item, bind, get, lift, on_session, modify; simpl;
    rewrite (py_setitem_norm _ _ _ _ Hn); simpl; [done|].
  apply bool_decide_eq_false in Hex.
  rewrite delete_id; [done|]. by apply eq_None_not_Some.
Qed.

Lemma update_metadata_cases (w : World) (i : Z) g c :
  after (update_metadata i g c) w = w \/
  exists n item,
    py_norm (length (dataset (session w))) i = Some n /\
    dataset (session w) !! n = Some item /\
    after (update_metadata i g c) w =
      mkWorld
        (advance
          (add_modified i
            (set_dataset
              (<[n := with_metadata g c item]> (dataset (session w)))
              (session w))))
        (files w) (outputs w).
Proof.
  unfold after, update_metadata, bind, get, lift. simpl.
  destruct (py_getitem (dataset (session w)) i) as [item|] eqn:Hit; [|by left].
  apply py_getitem_Ok in Hit as (n & Hn & Hitem).
  right. exists n, item. split_and!; try done.
  simpl. unfold store_item, bind, get, lift, on_session, modify; simpl.
  by rewrite (py_setitem_norm _ _ _ _ Hn).
Qed.

Lemma undelete_listing_dataset (w : World) (i : Z) :
  dataset (session (after (undelete_listing i) w)) = dataset (session w).
Proof.
  unfold after, undelete_listing, bind, get, on_session, modify, ret. simpl.
  by destruct (bool_decide (i ∈ deleted_items (session w))).
Qed.

Lemma advance_dataset s : dataset (advance s) = dataset s.
Proof. unfold advance. by destruct (_ <? _)%Z. Qed.

(** An edit changes at most one item of the dataset: it replaces its image
    list by one obtained by removing or exchanging images, or it replaces
    its grade and company. *)
Lemma run_edit_dataset (e : Edit) (w : World) :
  dataset (session (after (run_edit e) w)) = dataset (session w) \/
  exists n item item',
    dataset (session w) !! n = Some item /\
    dataset (session (after (run_edit e) w))
    = <[n := item']> (dataset (session w)) /\
    ((exists l, item' = with_images l item /\ l ⊆+ images item /\
                match e with SwapImages _ _ _ => l ≡ₚ images item | _ => True end)
     \/ (exists i g c, e = UpdateMetadata i g c /\
                       item' = with_metadata g c item)).
Proof.
  destruct e as [i k|i a b|i g c|i|i]; simpl.
  - destruct (delete_image_cases w i k) as
      [->|(n & item & p & rel & base & Hn & Hitem & _ & _ & Hrel & _ & ->)];
      [by left|].
    right. exists n, item, (with_images (delete p (images item)) item).
    split_and!; try done. left. eexists. split_and!; try done.
    apply sublist_submseteq, sublist_delete.
  - destruct (swap_images_cases w i a b) as
      [->|(n & item & p & q & x & y & Hn & Hitem & Hg & Hp & Hq & Hx & Hy)];
      [by left|].
    rewrite (swap_images_run w i a b n item p q x y) by done.
    right. exists n, item,
      (with_images (<[q:=x]> (<[p:=y]> (images item))) item).
    split_and!; try done. left. eexists. split; [done|].
    assert (P : <[q:=x]> (<[p:=y]> (images item)) ≡ₚ images item)
      by (by apply list_swap_Permutation).
    split; [by rewrite P|done].
  - destruct (update_metadata_cases w i g c) as
      [->|(n & item & Hn & Hitem & ->)]; [by left|].
    right. exists n, item, (with_metadata g c item). simpl.
    rewrite advance_dataset. simpl. split_and!; try done.
    right. by exists i, g, c.
  - left. by destruct (delete_listing_sets w i) as (-> & _).
  - left. apply undelete_listing_dataset.
Qed.

Lemma Forall2_insert_left {A} (R : A -> A -> Prop) (l : list A) n x y :
  (forall z, R z z) -> l !! n = Some y -> R x y -> Forall2 R (<[n := x]> l) l.
Proof.
  intros Hrefl Hy HR.
  rewrite <- (list_insert_id l n y Hy) at 2.
  apply Forall2_insert; [|done].
  apply Forall_Forall2_diag, Forall_forall. auto.
Qed.

Lemma fmap_insert_same {A B} (f : A -> B) (l : list A) n x y :
  l !! n = Some y -> f x = f y -> f <$> <[n := x]> l = f <$> l.
Proof.
  intros Hy Hf. rewrite list_fmap_insert, Hf.
  apply list_insert_id. by rewrite list_lookup_fmap, Hy.
Qed.

(** X7. Whatever edits the operator makes, the dataset keeps its items:
    none is added, removed or moved, every item keeps its listing id and
    its pass-through fields, and its images are images it had before, none
    of them twice. *)
Theorem edits_keep_items (es : list Edit) (w : World) :
  length (dataset (session (after_edits es w))) = length (dataset (session w)) /\
  Forall2 (fun it' it =>
             listing_id it' = listing_id it /\
             passthrough it' = passthrough it /\
             images it' ⊆+ images it)
          (dataset (session (after_edits es w))) (dataset (session w)).
Proof.
  set (R := fun it' it : DatasetItem =>
             listing_id it' = listing_id it /\
             passthrough it' = passthrough it /\
             images it' ⊆+ images it).
  assert (Hrefl : forall it, R it it) by (by intros).
  assert (G : Forall2 R (dataset (session (after_edits es w)))
                        (dataset (session w))).
  { revert w. induction es as [|e es IH]; intros w; simpl.
    { by apply Forall_Forall2_diag, Forall_forall. }
    apply (Forall2_trans R R R _
             (dataset (session (after (run_edit e) w))) _).
    { intros x y z (H1 & H2 & H3) (H4 & H5 & H6). unfold R.
      split_and!; try congruence. by etrans. }
    { apply IH. }
    destruct (run_edit_dataset e w) as
      [->|(n & item & item' & Hitem & -> & Hkind)].
    { by apply Forall_Forall2_diag, Forall_forall. }
    apply (Forall2_insert_left _ _ n item' item); [done|done|].
    destruct Hkind as [(l & -> & Hl & _)|(i & g & c & _ & ->)]; by unfold R. }
  split; [by eapply Forall2_length|done].
Qed.

(** X8. Only the metadata form changes a grade or a grading company, and
    it changes no image list: after any other edit every item has the grade
    and company it had, and after [update_metadata] every item has the
    images it had. *)
Theorem edits_separate_images_and_metadata (e : Edit) (w : World) :
  match e with
  | UpdateMetadata _ _ _ =>
      images <$> dataset (session (after (run_edit e) w))
      = images <$> dataset (session w)
  | _ =>
      (fun it => (grade it, grading_company it))
        <$> dataset (session (after (run_edit e) w))
      = (fun it => (grade it, grading_company it)) <$> dataset (session w)
  end.
Proof.
  destruct e as [i k|i a b|i g c|i|i]; simpl.
  - destruct (delete_image_cases w i k) as
      [->|(n & item & p & rel & base & _ & Hitem & _ & _ & _ & _ & ->)];
      [done|]. simpl. by apply (fmap_insert_same _ _ _ _ item).
  - destruct (swap_images_cases w i a b) as
      [->|(n & item & p & q & x & y & Hn & Hitem & Hg & Hp & Hq & Hx & Hy)];
      [done|].
    rewrite (swap_images_run w i a b n item p q x y) by done. simpl.
    by apply (fmap_insert_same _ _ _ _ item).
  - destruct (update_metadata_cases w i g c) as
      [->|(n & item & _ & Hitem & ->)]; [done|]. simpl.
    rewrite advance_dataset. simpl. by apply (fmap_insert_same _ _ _ _ item).
  - by destruct (delete_listing_sets w i) as (-> & _).
  - by rewrite undelete_listing_dataset.
Qed.

(** X9. [swap_images] never loses or duplicates an image: every item has,
    after the call, a rearrangement of the images it had, and all its other
    fields. *)
Theorem swap_images_permutes (w : World) (i a b : Z) :
  Forall2 (fun it' it =>
             images it' ≡ₚ images it /\ with_images (images it) it' = it)
          (dataset (session (after (swap_images i a b) w)))
          (dataset (session w)).
Proof.
  assert (Hrefl : forall it : DatasetItem,
            images it ≡ₚ images it /\ with_images (images it) it = it)
    by (intros it; split; [done|by destruct it]).
  destruct (swap_images_cases w i a b) as
    [->|(n & item & p & q & x & y & Hn & Hitem & Hg & Hp & Hq & Hx & Hy)].
  { by apply Forall_Forall2_diag, Forall_forall. }
  rewrite (swap_images_run w i a b n item p q x y) by done. simpl.
  apply (Forall2_insert_left _ _ n _ item); [done|done|]. simpl.
  split; [by apply list_swap_Permutation|by destruct item].
Qed.

Lemma py_norm_nat len n : n < len -> py_norm len (Z.of_nat n) = Some n.
Proof.
  intros Hn. unfold py_norm.
  rewrite (proj2 (Z.leb_le 0 (Z.of_nat n))) by lia.
  rewrite (proj2 (Z.ltb_lt (Z.of_nat n) (Z.of_nat len))) by lia.
  by rewrite Nat2Z.id.
Qed.

Lemma py_norm_last len : py_norm (S len) (-1) = Some len.
Proof.
  unfold py_norm.
  rewrite (proj2 (Z.leb_gt 0 (-1))) by lia.
  rewrite (proj2 (Z.leb_le (- Z.of_nat (S len)) (-1))) by lia.
  f_equal. lia.
Qed.

(** The call of [delete_image] on an index that resolves. *)
Lemma delete_image_run (w : World) (i k : Z) n item p rel base :
  py_norm (length (dataset (session w))) i = Some n ->
  dataset (session w) !! n = Some item ->
  (k < Z.of_nat (length (images item)))%Z ->
  py_norm (length (images item)) k = Some p ->
  images item !! p = Some rel ->
  base_path (session w) = Some base ->
  delete_image i k w =
    (mkWorld
       (add_modified i
         (set_dataset
           (<[n := with_images (delete p (images item)) item]>
              (dataset (session w)))
           (session w)))
       (delete (path_join base rel) (files w)) (outputs w),
     Ok tt).
Proof.
  intros Hn Hitem Hk Hp Hrel Hb.
  unfold delete_image, bind, get, lift. simpl.
  rewrite (py_getitem_norm _ _ _ _ Hn Hitem). simpl.
  rewrite (proj2 (Z.ltb_lt _ _) Hk).
  rewrite (py_getitem_norm _ _ _ _ Hp Hrel). simpl.
  unfold get_full_image_path, bind, get. simpl. rewrite Hb.
  unfold ret. simpl. unfold py_pop. rewrite Hp.
  rewrite <- delete_take_drop.
  destruct (bool_decide (is_Some (files w !! path_join base rel))) eqn:Hex;
    simpl; unfold store_item, bind, get, lift, on_session, modify; simpl;
    rewrite (py_setitem_norm _ _ _ _ Hn); simpl; [done|].
  apply bool_decide_eq_false in Hex.
  rewrite delete_id; [done|]. by apply eq_None_not_Some.
Qed.

(** X10. [delete_image] with an index that Python resolves inside the
    image list (below the length; a negative index counts from the end)
    returns normally after removing exactly that image from the item,
    deleting its file if it is there and tolerating that it is not, and
    marking the item modified; nothing else changes. *)
Theorem delete_image_removes (w : World) (i k : Z) n item p rel base :
  py_norm (length (dataset (session w))) i = Some n ->
  dataset (session w) !! n = Some item ->
  (k < Z.of_nat (length (images item)))%Z ->
  py_norm (length (images item)) k = Some p ->
  images item !! p = Some rel ->
  base_path (session w) = Some base ->
  delete_image i k w =
    (mkWorld
       (add_modified i
         (set_dataset
           (<[n := with_images (delete p (images item)) item]>
              (dataset (session w)))
           (session w)))
       (delete (path_join base rel) (files w)) (outputs w),
     Ok tt).
Proof.
  intros Hn Hitem Hk Hp Hrel Hb.
  unfold delete_image, bind, get, lift. simpl.
  rewrite (py_getitem_norm _ _ _ _ Hn Hitem). simpl.
  rewrite (proj2 (Z.ltb_lt _ _) Hk).
  rewrite (py_getitem_norm _ _ _ _ Hp Hrel). simpl.
  unfold get_full_image_path, bind, get. simpl. rewrite Hb.
  unfold ret. simpl. unfold py_pop. rewrite Hp.
  rewrite <- delete_take_drop.
  destruct (bool_decide (is_Some (files w !! path_join base rel))) eqn:Hex;
    simpl; unfold store_item, bind, get, lift, on_session, modify; simpl;
    rewrite (py_setitem_norm _ _ _ _ Hn); simpl; [done|].
  apply bool_decide_eq_false in Hex.
  rewrite delete_id; [done|]. by apply eq_None_not_Some.
Qed.

Lemma delete_image_removes_witness :
  delete_image 2 1 Sample.world =
    (mkWorld
       (add_modified 2
         (set_dataset
           (<[2 := with_images ["a.jpg"]
                     (Sample.card (PStr "9") (Some "CGC") ["a.jpg"; "gone.jpg"])]>
              Sample.items)
           (session Sample.world)))
       (delete (path_join "/data" "gone.jpg") (files Sample.world))
       (outputs Sample.world),
     Ok tt).
Proof.
  apply (delete_image_removes Sample.world 2 1 2
           (Sample.card (PStr "9") (Some "CGC") ["a.jpg"; "gone.jpg"])
           1 "gone.jpg" "/data").
  - reflexivity.
  - reflexivity.
  - simpl. lia.
  - reflexivity.
  - reflexivity.
  - reflexivity.
Defined.

(** X11. The guard of [delete_image] only bounds the index from above, so
    the index -1 passes it and removes the last image of the item. *)
Theorem delete_image_minus_one_removes_last (w : World) (n : nat) item
    (l : list string) (rel base : string) :
  dataset (session w) !! n = Some item ->
  images item = l ++ [rel] ->
  base_path (session w) = Some base ->
  dataset (session (after (delete_image (Z.of_nat n) (-1)) w))
  = <[n := with_images l item]> (dataset (session w)) /\
  files (after (delete_image (Z.of_nat n) (-1)) w) !! path_join base rel = None.
Proof.
  intros Hitem Himgs Hb.
  assert (Hlen : length (images item) = S (length l))
    by (rewrite Himgs, length_app; simpl; lia).
  unfold after.
  rewrite (delete_image_run w (Z.of_nat n) (-1) n item (length l) rel base);
    try done.
  - simpl. split; [|by rewrite lookup_delete_eq].
    do 2 f_equal. rewrite Himgs, delete_take_drop.
    rewrite take_app_length.
    rewrite drop_ge by (rewrite length_app; simpl; lia).
    by rewrite app_nil_r.
  - apply py_norm_nat. by eapply lookup_lt_Some.
  - lia.
  - rewrite Hlen. apply py_norm_last.
  - rewrite Himgs. by rewrite list_lookup_middle.
Qed.

Lemma delete_image_minus_one_removes_last_witness :
  dataset (session (after (delete_image (Z.of_nat 1) (-1)) Sample.world))
  = <[1 := with_images ["a.jpg"]
             (Sample.card (PInt 10) (Some "PSA") ["a.jpg"; "b.png"])]>
      (dataset (session Sample.world)) /\
  files (after (delete_image (Z.of_nat 1) (-1)) Sample.world)
    !! path_join "/data" "b.png" = None.
Proof.
  apply (delete_image_minus_one_removes_last Sample.world 1
           (Sample.card (PInt 10) (Some "PSA") ["a.jpg"; "b.png"])
           ["a.jpg"] "b.png" "/data").
  - reflexivity.
  - reflexivity.
  - reflexivity.
Defined.

(** X12. An image index at or beyond the length is a silent no-op: on an
    existing item that has at least one image, [delete_image] with such an
    index, and [swap_images] with such an index in either position, return
    normally and leave the world as it is.  (A record with no image is left
    out: [images] is then empty here whether the record has the key or not,
    and the source raises [KeyError] on a record without it.) *)
Theorem out_of_range_image_index_is_noop (w : World) (i k k' : Z) item :
  py_getitem (dataset (session w)) i = Ok item ->
  0 < length (images item) ->
  (Z.of_nat (length (images item)) <= k)%Z ->
  delete_image i k w = (w, Ok tt) /\
  swap_images i k k' w = (w, Ok tt) /\
  swap_images i k' k w = (w, Ok tt).
Proof.
  intros Hitem _ Hk.
  unfold delete_image, swap_images, bind, get, lift. simpl.
  rewrite Hitem. simpl.
  rewrite (proj2 (Z.ltb_ge k _)) by done. simpl.
  rewrite andb_false_r. done.
Qed.

Lemma out_of_range_image_index_is_noop_witness :
  delete_image 1 2 Sample.world = (Sample.world, Ok tt) /\
  swap_images 1 2 0 Sample.world = (Sample.world, Ok tt) /\
  swap_images 1 0 2 Sample.world = (Sample.world, Ok tt).
Proof.
  apply (out_of_range_image_index_is_noop Sample.world 1 2 0
           (Sample.card (PInt 10) (Some "PSA") ["a.jpg"; "b.png"])).
  - reflexivity.
  - simpl. lia.
  - simpl. lia.
Defined.

(** ** Curation: the cursor *)

Lemma cursor_ok_same (s s' : Session) :
  current_index s' = current_index s ->
  length (dataset s') = length (dataset s) ->
  cursor_ok s -> cursor_ok s'.
Proof. unfold cursor_ok. by intros -> ->. Qed.

Lemma advance_cursor_ok (s : Session) : cursor_ok s -> cursor_ok (advance s).
Proof.
  unfold cursor_ok, advance. intros [H0 H1].
  destruct (current_index s <? Z.of_nat (length (dataset s)) - 1)%Z eqn:E;
    [|done].
  apply Z.ltb_lt in E. simpl. lia.
Qed.

Lemma run_action_cursor_ok (a : Action) (w : World) :
  cursor_ok (session w) -> cursor_ok (session (after (run_action a) w)).
Proof.
  intros Hok. destruct a as [[i k|i a b|i g c|i|i]| |]; simpl.
  - destruct (delete_image_cases w i k) as
      [->|(n & item & p & rel & base & _ & _ & _ & _ & _ & _ & ->)]; [done|].
    simpl. eapply cursor_ok_same; [| |exact Hok]; simpl; [done|].
    by rewrite length_insert.
  - destruct (swap_images_cases w i a b) as
      [->|(n & item & p & q & x & y & Hn & Hitem & Hg & Hp & Hq & Hx & Hy)];
      [done|].
    rewrite (swap_images_run w i a b n item p q x y) by done. simpl.
    eapply cursor_ok_same; [| |exact Hok]; simpl; [done|].
    by rewrite length_insert.
  - destruct (update_metadata_cases w i g c) as
      [->|(n & item & _ & _ & ->)]; [done|]. simpl.
    apply advance_cursor_ok.
    eapply cursor_ok_same; [| |exact Hok]; simpl; [done|].
    by rewrite length_insert.
  - unfold after, delete_listing, bind, get, on_session, modify, ret. simpl.
    destruct (bool_decide (i ∈ modified_items (session w))); simpl;
      apply advance_cursor_ok; by eapply cursor_ok_same; [| |exact Hok].
  - unfold after, undelete_listing, bind, get, on_session, modify, ret. simpl.
    destruct (bool_decide (i ∈ deleted_items (session w))); simpl; [|done].
    by eapply cursor_ok_same; [| |exact Hok].
  - unfold after, prev_item, on_session, modify. simpl.
    destruct (0 <? current_index (session w))%Z eqn:E; [|done].
    apply Z.ltb_lt in E. destruct Hok as [H0 H1]. split; simpl; lia.
  - unfold after, next_item, on_session, modify. simpl.
    by apply advance_cursor_ok.
Qed.

(** X13. From a successful load on, whatever the operator does with the
    edit operations and the Prev and Next buttons, the cursor designates an
    item of the dataset (it is 0 when the dataset is empty): the main page
    can always index the dataset with it. *)
Theorem cursor_stays_in_range (json_load : string -> option Document)
    (json_path base : string) (acts : list Action) (w w1 : World) :
  load_dataset json_load json_path base w = (w1, Ok tt) ->
  cursor_ok (session (after_actions acts w1)).
Proof.
  intros Hload.
  assert (H1 : cursor_ok (session w1)).
  { unfold load_dataset, bind, get, lift, on_session, modify in Hload.
    simpl in Hload.
    destruct (files w !! json_path); [|done]. simpl in Hload.
    destruct (json_load _); [|done]. simpl in Hload.
    injection Hload as <-. unfold cursor_ok. simpl. lia. }
  clear Hload. revert w1 H1.
  induction acts as [|a acts IH]; intros w1 H1; simpl; [done|].
  apply IH. by apply run_action_cursor_ok.
Qed.

Lemma cursor_stays_in_range_witness :
  cursor_ok (session (after_actions
    [Next; DoEdit (UpdateMetadata 0 (PInt 9) (Some "PSA")); Prev; Prev]
    (after (load_dataset Sample.json_load "/one.json" "/data")
           Sample.world_docs))).
Proof.
  apply (cursor_stays_in_range Sample.json_load "/one.json" "/data" _
           Sample.world_docs).
  reflexivity.
Defined.

(** ** Curation: load *)

(** X14. A load that raises, for whatever reason (the file is missing, the
    document does not parse), leaves the whole world as it was: there is no
    partial load. *)
Theorem load_failure_keeps_world (json_load : string -> option Document)
    (json_path base : string) (w w' : World) (e : Exn) :
  load_dataset json_load json_path base w = (w', Raise e) -> w' = w.
Proof.
  unfold load_dataset, bind, get, lift, on_session, modify. simpl.
  destruct (files w !! json_path); simpl; [|by intros [= <- _]].
  destruct (json_load _); simpl; [done|by intros [= <- _]].
Qed.

Lemma load_failure_keeps_world_witness :
  (load_dataset Sample.json_load "/nowhere.json" "/data" Sample.world).1
  = Sample.world.
Proof.
  apply (load_failure_keeps_world Sample.json_load "/nowhere.json" "/data"
           Sample.world _ (FileNotFoundError "/nowhere.json")).
  reflexivity.
Defined.

(** X15. Load followed by export is a round trip on the records: the
    snapshot written by the export is the list of records of the document,
    a single record counting as a list of one, and the load starts from an
    empty modified set and an empty deleted set whatever was marked
    before. *)
Theorem load_then_export_roundtrip (json_load : string -> option Document)
    uuid4 float_str (json_path base out text : string) (doc : Document)
    (w : World) :
  files w !! json_path = Some text ->
  json_load text = Some doc ->
  let w1 := after (load_dataset json_load json_path base) w in
  let w2 := (export_dataset uuid4 float_str out w1).1 in
  modified_items (session w1) = ∅ /\ deleted_items (session w1) = ∅ /\
  snapshot out w2
  = Some (match doc with DocObject it => [it] | DocArray l => l end).
Proof.
  intros Hf Hd w1 w2. subst w2.
  assert (Hw1 : session w1
    = mkSession 0 (match doc with DocObject it => [it] | DocArray l => l end)
                true (Some base) ∅ ∅).
  { subst w1. unfold after, load_dataset, bind, get, lift, on_session, modify.
    simpl. rewrite Hf. simpl. by rewrite Hd. }
  pose proof (export_dataset_spec uuid4 float_str out w1) as H.
  destruct (export_dataset uuid4 float_str out w1) as [w2 a]. simpl.
  destruct H as (_ & _ & Hsnap & _).
  rewrite Hsnap, Hw1. done.
Qed.

Lemma load_then_export_roundtrip_witness :
  let w1 := after (load_dataset Sample.json_load "/one.json" "/data")
                  Sample.world_docs in
  let w2 := (export_dataset Sample.uuid4 Sample.float_str "/out" w1).1 in
  modified_items (session w1) = ∅ /\ deleted_items (session w1) = ∅ /\
  snapshot "/out" w2 = Some [Sample.card PNone None []].
Proof.
  apply (load_then_export_roundtrip Sample.json_load Sample.uuid4
           Sample.float_str "/one.json" "/data" "/out" "{}"
           (DocObject (Sample.card PNone None [])) Sample.world_docs).
  - reflexivity.
  - reflexivity.
Defined.

(** ** Classifier: what the scan accepts *)

Import Classifier.

Lemma parse_filename_sound (filename g u s e : string) :
  parse_filename filename = Some (g, u, s, e) ->
  matches_pattern filename g u s e.
Proof.
  unfold parse_filename, matches_pattern.
  destruct (take_plus (ignorecase cls_grade) filename) as [[g' r1]|] eqn:E1;
    simpl; [|done].
  destruct (expect "_" r1) as [r2|] eqn:E2; simpl; [|done].
  destruct (take_plus (ignorecase cls_hex) r2) as [[u' r3]|] eqn:E3;
    simpl; [|done].
  destruct (expect "_" r3) as [r4|] eqn:E4; simpl; [|done].
  destruct (take_side r4) as [[side r5]|] eqn:E5; simpl; [|done].
  destruct (expect "." r5) as [r6|] eqn:E6; simpl; [|done].
  destruct (take_plus (ignorecase cls_word) r6) as [[e' r7]|] eqn:E7;
    simpl; [|done].
  destruct (at_end r7) eqn:E8; [|done].
  intros [= <- <- <- <-].
  apply take_plus_spec in E1 as (-> & Hg & Hgc & _).
  apply expect_spec in E2 as ->.
  apply take_plus_spec in E3 as (-> & Hu & Huc & _).
  apply expect_spec in E4 as ->.
  apply take_side_spec in E5 as (-> & Hside).
  apply expect_spec in E6 as ->.
  apply take_plus_spec in E7 as (-> & He & Hec & _).
  apply at_end_spec in E8.
  exists side, r7. split_and!; try done.
  - by rewrite <- (all_chars_ext _ _ _ ignorecase_grade).
  - by rewrite <- (all_chars_ext _ _ _ ignorecase_word).
Qed.

Lemma accepted_parse file g u s e :
  accepted file = Some (g, u, s, e) ->
  is_file file = true /\
  lower (suffix (name file)) ∈ [".jpg"; ".jpeg"; ".png"] /\
  parse_filename (name file) = Some (g, u, s, e) /\
  is_grade_10 g = true.
Proof.
  unfold accepted.
  destruct (is_file file); simpl; [|done].
  destruct (bool_decide _) eqn:Hs; [|done]. apply bool_decide_eq_true in Hs.
  destruct (parse_filename (name file)) as [[[[g' u'] s'] e']|]; [|done].
  destruct (nonempty g' && nonempty u' && nonempty s' && is_grade_10 g') eqn:Hc;
    [|done].
  intros [= <- <- <- <-].
  apply andb_true_iff in Hc as [_ Hc]. done.
Qed.

Lemma accepted_side file g u s e :
  accepted file = Some (g, u, s, e) -> s = "front" \/ s = "back".
Proof.
  intros H. apply accepted_parse in H as (_ & _ & H & _).
  apply parse_filename_sound in H as (side & tail & _ & _ & _ & _ & _ & Hs & -> & _).
  done.
Qed.

Lemma accepted_name_nonempty file g u s e :
  accepted file = Some (g, u, s, e) -> nonempty (name file) = true.
Proof.
  intros H. apply accepted_parse in H as (_ & _ & H & _).
  apply parse_filename_sound in H as (side & tail & -> & Hg & _).
  by destruct g.
Qed.

(** X16. The scan ignores the directory entries it does not accept
    (directories, other suffixes, names that do not parse, other grades):
    scanning a listing gives the same pairs as scanning only its accepted
    entries. *)
Theorem scan_ignores_rejected (listing : list DirEntry) :
  pairs_of (scan listing)
  = pairs_of (scan (filter (fun f => is_Some (accepted f)) listing)).
Proof.
  unfold scan. f_equal.
  generalize (∅ : gmap string CardPair).
  induction listing as [|file rest IH]; intros d; simpl; [done|].
  rewrite filter_cons. destruct (decide (is_Some (accepted file))) as [Hs|Hn].
  - simpl. apply IH.
  - rewrite <- IH. f_equal. unfold scan_step.
    destruct (accepted file); [|done]. exfalso. apply Hn. eauto.
Qed.

(** X17. Every pair that the scan loads has a grade that [is_grade_10]
    accepts, and has both a front and a back file name, neither empty. *)
Theorem loaded_pairs_are_grade_10 (listing : list DirEntry) (p : CardPair) :
  p ∈ pairs_of (scan listing) ->
  is_grade_10 (grade p) = true /\
  truthy_name (front p) = true /\ truthy_name (back p) = true.
Proof.
  intros Hp.
  assert (Hboth : truthy_name (front p) && truthy_name (back p) = true).
  { unfold pairs_of in Hp. rewrite merge_sort_Permutation in Hp.
    by apply list_elem_of_filter in Hp as [Hp _]. }
  apply andb_true_iff in Hboth as [Hf Hb].
  apply pairs_of_lookup in Hp as [u Hu].
  destruct (scan_inv_listing listing) as [_ Hsome].
  destruct (Hsome u p Hu) as [_ (pre & file & post & s & _ & Hacc & _)].
  apply accepted_parse in Hacc as (_ & _ & _ & Hg). done.
Qed.

Lemma loaded_pairs_are_grade_10_witness :
  is_grade_10 (grade SampleCards.pair) = true /\
  truthy_name (front SampleCards.pair) = true /\
  truthy_name (back SampleCards.pair) = true.
Proof.
  apply (loaded_pairs_are_grade_10 SampleCards.listing SampleCards.pair).
  rewrite scan_sample_pairs. apply list_elem_of_here.
Defined.

(** ** Classifier: the pairs *)

#[global] Instance uid_le_total : Total uid_le.
Proof. intros a b. unfold uid_le. apply String.leb_total. Qed.

Lemma sublist_fmap_keep {A B} (f : A -> B) (l1 l2 : list A) :
  l1 `sublist_of` l2 -> (f <$> l1) `sublist_of` (f <$> l2).
Proof.
  induction 1; simpl; [constructor|by apply sublist_skip|by apply sublist_cons].
Qed.

(** X18. The pairs come out sorted by [unique_id], and no identifier occurs
    twice. *)
Theorem loaded_pairs_sorted_distinct (listing : list DirEntry) :
  Sorted uid_le (pairs_of (scan listing)) /\
  NoDup (unique_id <$> pairs_of (scan listing)).
Proof.
  split; [apply Sorted_merge_sort; apply _|].
  unfold pairs_of. rewrite merge_sort_Permutation.
  eapply sublist_NoDup; [|apply sublist_fmap_keep, sublist_filter].
  assert (E : unique_id <$> (snd <$> map_to_list (scan listing))
              = fst <$> map_to_list (scan listing)).
  { rewrite <- list_fmap_compose. apply Forall_fmap_ext_1.
    apply Forall_forall. intros [u p] Hin. simpl.
    apply elem_of_map_to_list in Hin.
    destruct (scan_inv_listing listing) as [_ Hsome].
    by destruct (Hsome u p Hin). }
  rewrite E. apply NoDup_fst_map_to_list.
Qed.

Lemma sided_as_snoc scanned file u s n :
  sided_as scanned u s n -> sided_as (scanned ++ [file]) u s n.
Proof.
  intros (f & g & e & Hf & Hn & Hacc). exists f, g, e.
  split; [|done]. apply elem_of_app. by left.
Qed.

Lemma sided_snoc_inv scanned file u s :
  sided (scanned ++ [file]) u s ->
  sided scanned u s \/ exists g e, accepted file = Some (g, u, s, e).
Proof.
  intros (n & f & g & e & Hf & Hn & Hacc).
  apply elem_of_app in Hf as [Hf|Hf].
  - left. by exists n, f, g, e.
  - apply list_elem_of_singleton in Hf as ->. right. eauto.
Qed.

Lemma side_inv_step scanned d file :
  scan_inv scanned d -> side_inv scanned d ->
  side_inv (scanned ++ [file]) (scan_step d file).
Proof.
  intros [Hnone _] Hside. unfold scan_step.
  destruct (accepted file) as [[[[g u] s] e]|] eqn:Hacc.
  2: { intros u p Hp. destruct (Hside u p Hp) as (Hf & Hb & Hfc & Hbc).
       split_and!.
       - intros n Hn. by apply sided_as_snoc, Hf.
       - intros n Hn. by apply sided_as_snoc, Hb.
       - intros [H|(g & e & H)]%sided_snoc_inv; [auto|congruence].
       - intros [H|(g & e & H)]%sided_snoc_inv; [auto|congruence]. }
  assert (Hhere : sided_as (scanned ++ [file]) u s (name file)).
  { exists file, g, e. split; [|done]. apply elem_of_app. right.
    by apply list_elem_of_singleton. }
  intros u' p Hp.
  destruct (decide (u' = u)) as [->|Hne].
  2: { rewrite lookup_alter_ne in Hp by done.
       assert (Hd : d !! u' = Some p).
       { destruct (d !! u); [done|]. by rewrite lookup_insert_ne in Hp. }
       destruct (Hside u' p Hd) as (Hf & Hb & Hfc & Hbc). split_and!.
       - intros n Hn. by apply sided_as_snoc, Hf.
       - intros n Hn. by apply sided_as_snoc, Hb.
       - intros [H|(g' & e' & H)]%sided_snoc_inv; [auto|congruence].
       - intros [H|(g' & e' & H)]%sided_snoc_inv; [auto|congruence]. }
  rewrite lookup_alter_eq in Hp.
  assert (Hold : exists p0, p = set_side s (name file) p0 /\
    (forall n, front p0 = Some n -> sided_as scanned u "front" n) /\
    (forall n, back p0 = Some n -> sided_as scanned u "back" n) /\
    (sided scanned u "front" -> is_Some (front p0)) /\
    (sided scanned u "back" -> is_Some (back p0))).
  { destruct (d !! u) as [p0|] eqn:Hd.
    - rewrite Hd in Hp. simpl in Hp. injection Hp as <-.
      exists p0. split; [done|]. by apply Hside.
    - rewrite lookup_insert_eq in Hp. simpl in Hp. injection Hp as <-.
      exists (mkPair g u e None None). split; [done|]. simpl.
      split_and!; try done.
      + intros (n & f & g' & e' & Hf & _ & Ha). exfalso.
        apply (Hnone u Hd f Hf). unfold uid_of. by rewrite Ha.
      + intros (n & f & g' & e' & Hf & _ & Ha). exfalso.
        apply (Hnone u Hd f Hf). unfold uid_of. by rewrite Ha. }
  destruct Hold as (p0 & -> & Hf & Hb & Hfc & Hbc).
  destruct (accepted_side _ _ _ _ _ Hacc) as [->| ->];
    unfold set_side; simpl; split_and!.
  - intros n [= <-]. done.
  - intros n Hn. by apply sided_as_snoc, Hb.
  - eauto.
  - intros [H|(g' & e' & H)]%sided_snoc_inv; [auto|congruence].
  - intros n Hn. by apply sided_as_snoc, Hf.
  - intros n [= <-]. done.
  - intros [H|(g' & e' & H)]%sided_snoc_inv; [auto|congruence].
  - eauto.
Qed.

Lemma side_inv_loop : forall rest scanned d,
  scan_inv scanned d -> side_inv scanned d ->
  side_inv (scanned ++ rest) (foldl scan_step d rest).
Proof.
  induction rest as [|file rest IH]; intros scanned d Hinv Hside; simpl.
  - by rewrite app_nil_r.
  - replace (scanned ++ file :: rest) with ((scanned ++ [file]) ++ rest)
      by (by rewrite <- app_assoc).
    apply IH; [by apply scan_step_inv|by apply side_inv_step].
Qed.

Lemma side_inv_listing listing : side_inv listing (scan listing).
Proof.
  apply (side_inv_loop listing [] ∅).
  - split.
    + intros u _ f Hf. by apply elem_of_nil in Hf.
    + intros u p Hp. by rewrite lookup_empty in Hp.
  - intros u p Hp. by rewrite lookup_empty in Hp.
Qed.

(** X19. Pairing is by identifier and needs both sides: there is a pair
    for an identifier exactly when the listing has an accepted front entry
    and an accepted back entry with that identifier, in whatever order the
    directory is listed.  A front without a back, or a back without a
    front, gives no pair. *)
Theorem pair_iff_both_sides (listing : list DirEntry) (u : string) :
  (exists p, p ∈ pairs_of (scan listing) /\ unique_id p = u) <->
  sided listing u "front" /\ sided listing u "back".
Proof.
  destruct (scan_inv_listing listing) as [Hnone Hsome].
  pose proof (side_inv_listing listing) as Hside.
  split.
  - intros (p & Hp & <-).
    assert (Hboth : truthy_name (front p) && truthy_name (back p) = true).
    { unfold pairs_of in Hp. rewrite merge_sort_Permutation in Hp.
      by apply list_elem_of_filter in Hp as [Hp _]. }
    apply andb_true_iff in Hboth as [Hf Hb].
    apply pairs_of_lookup in Hp as [u Hu].
    destruct (Hsome u p Hu) as [<- _].
    destruct (Hside _ p Hu) as (Hfo & Hbo & _).
    destruct (front p) as [nf|]; [|done]. destruct (back p) as [nb|]; [|done].
    split; eexists; eauto.
  - intros [Hf Hb].
    destruct (scan listing !! u) as [p|] eqn:Hu.
    2: { destruct Hf as (n & f & g & e & Hin & _ & Ha). exfalso.
         apply (Hnone u Hu f Hin). unfold uid_of. by rewrite Ha. }
    destruct (Hsome u p Hu) as [Hk _].
    destruct (Hside u p Hu) as (Hfo & Hbo & Hfc & Hbc).
    destruct (Hfc Hf) as [nf Hnf]. destruct (Hbc Hb) as [nb Hnb].
    exists p. split; [|done].
    unfold pairs_of. rewrite merge_sort_Permutation.
    apply list_elem_of_filter. split.
    + rewrite Hnf, Hnb. simpl.
      destruct (Hfo nf Hnf) as (f1 & g1 & e1 & _ & <- & Ha1).
      destruct (Hbo nb Hnb) as (f2 & g2 & e2 & _ & <- & Ha2).
      by rewrite (accepted_name_nonempty _ _ _ _ _ Ha1),
                 (accepted_name_nonempty _ _ _ _ _ Ha2).
    + apply list_elem_of_fmap. exists (u, p). split; [done|].
      by apply elem_of_map_to_list.
Qed.

(** X20. The two file names of a pair are names of entries of the
    listing that the scan accepted under the pair's identifier, the front
    name as a front and the back name as a back. *)
Theorem pair_names_come_from_listing (listing : list DirEntry) (p : CardPair) :
  p ∈ pairs_of (scan listing) ->
  exists nf nb,
    front p = Some nf /\ back p = Some nb /\
    sided_as listing (unique_id p) "front" nf /\
    sided_as listing (unique_id p) "back" nb.
Proof.
  intros Hp.
  assert (Hboth : truthy_name (front p) && truthy_name (back p) = true).
  { unfold pairs_of in Hp. rewrite merge_sort_Permutation in Hp.
    by apply list_elem_of_filter in Hp as [Hp _]. }
  apply andb_true_iff in Hboth as [Hf Hb].
  apply pairs_of_lookup in Hp as [u Hu].
  destruct (scan_inv_listing listing) as [_ Hsome].
  destruct (Hsome u p Hu) as [<- _].
  destruct (side_inv_listing listing _ p Hu) as (Hfo & Hbo & _).
  destruct (front p) as [nf|]; [|done]. destruct (back p) as [nb|]; [|done].
  exists nf, nb. split_and!; auto.
Qed.

Lemma pair_names_come_from_listing_witness :
  exists nf nb,
    front SampleCards.pair = Some nf /\ back SampleCards.pair = Some nb /\
    sided_as SampleCards.listing (unique_id SampleCards.pair) "front" nf /\
    sided_as SampleCards.listing (unique_id SampleCards.pair) "back" nb.
Proof.
  apply (pair_names_come_from_listing SampleCards.listing SampleCards.pair).
  rewrite scan_sample_pairs. apply list_elem_of_here.
Defined.

(** ** Classifier: names *)

Lemma append_assoc' (a b c : string) : (a +:+ b) +:+ c = a +:+ (b +:+ c).
Proof.
  induction a as [|x a IH]; [done|].
  change (String x ((a +:+ b) +:+ c) = String x (a +:+ (b +:+ c))).
  by rewrite IH.
Qed.

Lemma append_nil_r' (a : string) : a +:+ "" = a.
Proof.
  induction a as [|x a IH]; [done|].
  change (String x (a +:+ "") = String x a). by rewrite IH.
Qed.

Lemma append_inv_head (a x y : string) : a +:+ x = a +:+ y -> x = y.
Proof.
  induction a as [|c a IH]; [done|].
  change (String c (a +:+ x) = String c (a +:+ y) -> x = y).
  intros [= H]. auto.
Qed.

Lemma lower_append (a b : string) : lower (a +:+ b) = lower a +:+ lower b.
Proof.
  induction a as [|x a IH]; [done|].
  change (String (to_lower x) (lower (a +:+ b))
          = String (to_lower x) (lower a +:+ lower b)).
  by rewrite IH.
Qed.

Lemma parse_filename_complete (filename g u s e : string) :
  matches_pattern filename g u s e ->
  parse_filename filename = Some (g, u, s, e).
Proof.
  unfold parse_filename.
  intros (side & tail & -> & Hg & Hgc & Hu & Huc & Hside & -> & He & Hec & Ht).
  rewrite (take_plus_app _ g); [|done| |done].
  2: by rewrite (all_chars_ext _ _ _ ignorecase_grade).
  simpl. rewrite append_nil_l.
  rewrite (take_plus_app _ u); [|done|done|reflexivity].
  simpl. rewrite append_nil_l.
  rewrite (proj2 (take_side_spec _ side _)) by done.
  simpl. rewrite append_nil_l.
  rewrite (take_plus_app _ e); [|done| |].
  - simpl. by rewrite (proj2 (at_end_spec tail)).
  - by rewrite (all_chars_ext _ _ _ ignorecase_word).
  - by destruct Ht as [->| ->].
Qed.

(** X21. The two programs agree on file names: a name that the export
    builds from a grade made of digits and dots, a lower-case hex
    identifier and a source file with a word-character extension is parsed
    back by the classifier into that grade, that identifier, the side of
    the image position and that extension. *)
Theorem export_name_parses (g u src e : string) (k : nat) :
  g <> "" -> all_chars cls_grade g = true ->
  u <> "" -> all_chars cls_hex u = true ->
  e <> "" -> all_chars cls_word e = true ->
  suffix (basename src) = "." +:+ e ->
  parse_filename (Curation.export_name g u k src)
  = Some (g, u, if (k =? 0)%nat then "front" else "back", e).
Proof.
  intros Hg Hgc Hu Huc He Hec Hsuf.
  apply parse_filename_complete.
  exists (if (k =? 0)%nat then "front" else "back"), "".
  unfold Curation.export_name. rewrite Hsuf, append_nil_r'.
  split_and!; try done.
  - rewrite (all_chars_ext _ (fun c => is_digit c || in_range 97 102 c
                                        || in_range 65 70 c) _ ignorecase_hex).
    clear -Huc. induction u as [|c u IH]; simpl in *; [done|].
    apply andb_true_iff in Huc as [Hc Hu]. rewrite (IH Hu).
    unfold cls_hex in Hc. by rewrite Hc.
  - by destruct (k =? 0)%nat; [left|right].
  - by destruct (k =? 0)%nat.
  - by left.
Qed.

Lemma export_name_parses_witness :
  parse_filename (Curation.export_name "9.5" "c0ffee01" 1 "/data/b.png")
  = Some ("9.5", "c0ffee01", if (1 =? 0)%nat then "front" else "back", "png").
Proof.
  apply (export_name_parses "9.5" "c0ffee01" "/data/b.png" "png" 1).
  - discriminate.
  - reflexivity.
  - discriminate.
  - reflexivity.
  - discriminate.
  - reflexivity.
  - reflexivity.
Defined.

(** X22. A classified card leaves the queue: the names that
    [rename_card_pair] gives under the labels [10m] and [10p] do not parse,
    so a later scan of the directory accepts neither file, whatever the
    identifier and extension of the pair. *)
Theorem classified_names_are_not_scanned (p : CardPair) (side : string)
    (is_a_file : bool) :
  accepted (mkEntry (new_name "10m" p side) is_a_file) = None /\
  accepted (mkEntry (new_name "10p" p side) is_a_file) = None.
Proof.
  assert (Hm : parse_filename (new_name "10m" p side) = None) by reflexivity.
  assert (Hp : parse_filename (new_name "10p" p side) = None) by reflexivity.
  unfold accepted. cbn [name is_file]. rewrite Hm, Hp.
  split; by destruct (_ && _).
Qed.

Lemma last_dot_tail_none (y : string) :
  all_chars (fun c => negb (is_dot c)) y = true -> last_dot_tail y = None.
Proof.
  induction y as [|c y IH]; simpl; [done|].
  intros [Hc Hy]%andb_true_iff. rewrite (IH Hy).
  by destruct (is_dot c).
Qed.

Lemma last_dot_tail_app (x y : string) :
  last_dot_tail y = None ->
  last_dot_tail (x +:+ String "." y) = Some (String "." y).
Proof.
  intros Hy. induction x as [|c x IH].
  - change (last_dot_tail (String "." y) = Some (String "." y)).
    simpl. by rewrite Hy.
  - change (last_dot_tail (String c (x +:+ String "." y))
            = Some (String "." y)).
    simpl. by rewrite IH.
Qed.

Lemma word_is_not_dot (s : string) :
  all_chars cls_word s = true ->
  all_chars (fun c => negb (is_dot c)) s = true.
Proof.
  induction s as [|c s IH]; simpl; [done|].
  intros [Hc Hs]%andb_true_iff. rewrite (IH Hs), andb_true_r.
  revert Hc. by destruct c as [[] [] [] [] [] [] [] []].
Qed.

Lemma all_chars_app p (a b : string) :
  all_chars p (a +:+ b) = all_chars p a && all_chars p b.
Proof.
  induction a as [|c a IH]; [done|].
  change (p c && all_chars p (a +:+ b) = p c && all_chars p a && all_chars p b).
  by rewrite IH, andb_assoc.
Qed.

Lemma length_append (a b : string) :
  String.length (a +:+ b) = String.length a + String.length b.
Proof.
  induction a as [|c a IH]; [done|].
  change (S (String.length (a +:+ b)) = S (String.length a + String.length b)).
  by rewrite IH.
Qed.

(** The suffix of a name that matches the pattern is the dot, the
    extension, and what [$] let through. *)
Lemma matches_pattern_suffix (filename g u s e : string) :
  matches_pattern filename g u s e ->
  exists tail, (tail = "" \/ tail = String newline "") /\
               suffix filename = "." +:+ e +:+ tail.
Proof.
  intros (side & tail & -> & Hg & _ & _ & _ & _ & _ & He & Hec & Ht).
  exists tail. split; [done|].
  destruct g as [|c g]; [done|].
  change (String c g +:+ "_" +:+ u +:+ "_" +:+ side +:+ "." +:+ e +:+ tail)
    with (String c (g +:+ "_" +:+ u +:+ "_" +:+ side +:+ String "." (e +:+ tail))).
  unfold suffix.
  replace (g +:+ "_" +:+ u +:+ "_" +:+ side +:+ String "." (e +:+ tail))
    with ((g +:+ "_" +:+ u +:+ "_" +:+ side) +:+ String "." (e +:+ tail))
    by (by rewrite !append_assoc').
  rewrite last_dot_tail_app.
  - change (String.length (String "." (e +:+ tail)))
      with (S (String.length (e +:+ tail))).
    rewrite length_append. destruct e as [|c' e]; [done|]. done.
  - apply last_dot_tail_none. rewrite all_chars_app.
    rewrite (word_is_not_dot e Hec). simpl.
    by destruct Ht as [->| ->].
Qed.

Lemma append_newline_not (s t : string) :
  all_chars (fun c => negb (Ascii.eqb c newline)) t = true ->
  s +:+ String newline "" <> t.
Proof.
  revert t. induction s as [|c s IH]; intros t Ht.
  - change (String newline "" <> t). intros <-. by vm_compute in Ht.
  - change (String c (s +:+ String newline "") <> t).
    destruct t as [|c' t]; [done|]. simpl in Ht.
    apply andb_true_iff in Ht as [_ Ht]. intros [= _ H]. by apply (IH t).
Qed.

Lemma accepted_extension file g u s e :
  accepted file = Some (g, u, s, e) -> lower e ∈ ["jpg"; "jpeg"; "png"].
Proof.
  intros H. apply accepted_parse in H as (_ & Hsuf & H & _).
  apply parse_filename_sound, matches_pattern_suffix in H
    as (tail & Ht & Hs).
  rewrite Hs in Hsuf.
  change ("." +:+ e +:+ tail) with (String "." (e +:+ tail)) in Hsuf.
  change (lower (String "." (e +:+ tail)))
    with (String "." (lower (e +:+ tail))) in Hsuf.
  rewrite lower_append in Hsuf.
  destruct Ht as [->| ->].
  - change (lower "") with "" in Hsuf. rewrite append_nil_r' in Hsuf.
    rewrite !elem_of_cons in Hsuf. rewrite !elem_of_cons.
    destruct Hsuf as [[= ->]|[[= ->]|[[= ->]|Hn]]]; auto.
    by apply elem_of_nil in Hn.
  - exfalso. change (lower (String newline "")) with (String newline "") in Hsuf.
    rewrite !elem_of_cons in Hsuf.
    destruct Hsuf as [[= E]|[[= E]|[[= E]|Hn]]];
      [| | |by apply elem_of_nil in Hn].
    all: by apply append_newline_not in E.
Qed.

(** X23. Every pair that the scan loads has an image extension: in lower
    case it is [jpg], [jpeg] or [png]. *)
Theorem loaded_pairs_have_image_extension (listing : list DirEntry)
    (p : CardPair) :
  p ∈ pairs_of (scan listing) ->
  lower (extension p) ∈ ["jpg"; "jpeg"; "png"].
Proof.
  intros Hp. apply pairs_of_lookup in Hp as [u Hu].
  destruct (scan_inv_listing listing) as [_ Hsome].
  destruct (Hsome u p Hu) as [_ (pre & file & post & s & _ & Hacc & _)].
  by apply accepted_extension in Hacc.
Qed.

Lemma loaded_pairs_have_image_extension_witness :
  lower (extension SampleCards.pair) ∈ ["jpg"; "jpeg"; "png"].
Proof.
  apply (loaded_pairs_have_image_extension SampleCards.listing SampleCards.pair).
  rewrite scan_sample_pairs. apply list_elem_of_here.
Defined.

(** ** Classifier: a successful classification *)

Lemma new_name_sides_differ (g : string) (p : CardPair) :
  new_name g p "front" <> new_name g p "back".
Proof.
  unfold new_name. intros H.
  apply append_inv_head in H.
  change ("_" +:+ ?x) with (String "_" x) in H.
  injection H as H. apply append_inv_head in H.
  discriminate H.
Qed.

Lemma advance_fields st :
  card_pairs (Classifier.advance st) = card_pairs st /\
  classified_count (Classifier.advance st) = classified_count st.
Proof. unfold Classifier.advance. by destruct (_ <? _)%Z. Qed.

(** X24. When both files are there, under different names, and the back
    file is not already called what the front file will be called,
    [rename_card_pair] returns [True]; afterwards the front and back
    contents are under the new names and no longer under the old ones, every
    other file of the directory is untouched, the pair records the new
    grade and names, and the classified counter has grown by one. *)
Theorem rename_card_pair_success (w : Classifier.World) (ref : nat)
    (g : string) (p : CardPair) (sd f b df db : string) :
  card_pairs (state w) !! ref = Some p ->
  source_dir (state w) = Some sd ->
  front p = Some f -> back p = Some b ->
  dir w !! f = Some df -> dir w !! b = Some db ->
  f <> b -> b <> new_name g p "front" ->
  exists w',
    rename_card_pair posix_rename ref g w = (w', Ok true) /\
    dir w' !! new_name g p "front" = Some df /\
    dir w' !! new_name g p "back" = Some db /\
    (f <> new_name g p "front" -> f <> new_name g p "back" ->
     dir w' !! f = None) /\
    (b <> new_name g p "back" -> dir w' !! b = None) /\
    (forall k, k <> f -> k <> b ->
       k <> new_name g p "front" -> k <> new_name g p "back" ->
       dir w' !! k = dir w !! k) /\
    card_pairs (state w')
    = <[ref := mkPair g (unique_id p) (extension p)
                 (Some (new_name g p "front")) (Some (new_name g p "back"))]>
        (card_pairs (state w)) /\
    classified_count (state w') = (classified_count (state w) + 1)%Z.
Proof.
  intros Hp Hsd Hf Hb Hdf Hdb Hfb Hbnf.
  pose proof (new_name_sides_differ g p) as Hnn.
  rewrite (rename_card_pair_run posix_rename w ref g p sd f b) by done.
  unfold posix_rename at 1. rewrite Hdf.
  unfold posix_rename.
  rewrite lookup_insert_ne by done. rewrite lookup_delete_ne by done.
  rewrite Hdb.
  eexists. split; [done|]. simpl.
  destruct (advance_fields (incr_classified (set_card_pair ref
    (mkPair g (unique_id p) (extension p) (Some (new_name g p "front"))
            (Some (new_name g p "back"))) (state w)))) as [-> ->].
  simpl. split_and!; try done.
  - rewrite lookup_insert_ne by done. rewrite lookup_delete_ne by done.
    by rewrite lookup_insert_eq.
  - by rewrite lookup_insert_eq.
  - intros H1 H2. rewrite lookup_insert_ne by done.
    rewrite lookup_delete_ne by done. rewrite lookup_insert_ne by done.
    by rewrite lookup_delete_eq.
  - intros H1. rewrite lookup_insert_ne by done. by rewrite lookup_delete_eq.
  - intros k H1 H2 H3 H4. rewrite lookup_insert_ne by done.
    rewrite lookup_delete_ne by done. rewrite lookup_insert_ne by done.
    by rewrite lookup_delete_ne.
Qed.

Lemma rename_card_pair_success_witness :
  exists w',
    rename_card_pair posix_rename 0 "10m" SampleCards.world_full = (w', Ok true) /\
    dir w' !! new_name "10m" SampleCards.pair "front" = Some "F" /\
    dir w' !! new_name "10m" SampleCards.pair "back" = Some "B" /\
    ("10_ab12_front.jpg" <> new_name "10m" SampleCards.pair "front" ->
     "10_ab12_front.jpg" <> new_name "10m" SampleCards.pair "back" ->
     dir w' !! "10_ab12_front.jpg" = None) /\
    ("10_ab12_back.png" <> new_name "10m" SampleCards.pair "back" ->
     dir w' !! "10_ab12_back.png" = None) /\
    (forall k, k <> "10_ab12_front.jpg" -> k <> "10_ab12_back.png" ->
       k <> new_name "10m" SampleCards.pair "front" ->
       k <> new_name "10m" SampleCards.pair "back" ->
       dir w' !! k = dir SampleCards.world_full !! k) /\
    card_pairs (state w')
    = <[0 := mkPair "10m" (unique_id SampleCards.pair)
               (extension SampleCards.pair)
               (Some (new_name "10m" SampleCards.pair "front"))
               (Some (new_name "10m" SampleCards.pair "back"))]>
        (card_pairs (state SampleCards.world_full)) /\
    classified_count (state w')
    = (classified_count (state SampleCards.world_full) + 1)%Z.
Proof.
  apply (rename_card_pair_success SampleCards.world_full 0 "10m"
           SampleCards.pair "/cards" "10_ab12_front.jpg" "10_ab12_back.png"
           "F" "B").
  - reflexivity.
  - reflexivity.
  - reflexivity.
  - reflexivity.
  - by vm_compute.
  - by vm_compute.
  - discriminate.
  - discriminate.
Defined.

(** ** Classifier: the cursor *)

Lemma rename_card_pair_state rename_file (w : Classifier.World) ref g :
  state (rename_card_pair rename_file ref g w).1 = state w \/
  exists p', state (rename_card_pair rename_file ref g w).1
             = Classifier.advance
                 (incr_classified (set_card_pair ref p' (state w))).
Proof.
  unfold rename_card_pair, bind, get, lift, try_except, rename, on_state,
    modify, ret, require. simpl.
  destruct (card_pairs (state w) !! ref) as [p|]; [|by left]. simpl.
  destruct (source_dir (state w)); [|by left]. simpl.
  destruct (front p) as [f|]; [|by left]. simpl.
  destruct (back p) as [b|]; [|by left]. simpl.
  destruct (rename_file (dir w) f (new_name g p "front")) as [d1|e1];
    [|by left]. simpl.
  destruct (rename_file d1 b (new_name g p "back")) as [d2|e2]; [|by left].
  simpl. right. eauto.
Qed.

Lemma classifier_advance_ok (st : State) :
  Classifier.cursor_ok st -> Classifier.cursor_ok (Classifier.advance st).
Proof.
  unfold Classifier.cursor_ok, Classifier.advance. intros [H0 H1].
  destruct (current_index st <? Z.of_nat (length (card_pairs st)) - 1)%Z eqn:E;
    [|done].
  apply Z.ltb_lt in E. simpl. lia.
Qed.

Lemma classify_current_cursor_ok rename_file g (w : Classifier.World) :
  Classifier.cursor_ok (state w) ->
  Classifier.cursor_ok (state (classify_current rename_file g w).1).
Proof.
  intros Hok. unfold classify_current, bind, get, raise. simpl.
  destruct (py_norm _ _) as [ref|]; [|done].
  destruct (rename_card_pair_state rename_file w ref g) as [->|[p' ->]];
    [done|].
  apply classifier_advance_ok.
  unfold Classifier.cursor_ok in *. simpl. by rewrite length_insert.
Qed.

Lemma press_cursor_ok rename_file (b : Button) (w : Classifier.World) :
  Classifier.cursor_ok (state w) ->
  Classifier.cursor_ok (state (press rename_file b w)).
Proof.
  intros Hok. destruct b; simpl.
  - by apply classify_current_cursor_ok.
  - by apply classify_current_cursor_ok.
  - by apply classifier_advance_ok.
  - unfold prev_card, on_state, modify. simpl.
    destruct (0 <? current_index (state w))%Z eqn:E; [|done].
    apply Z.ltb_lt in E. destruct Hok as [H0 H1]. split; simpl; lia.
  - by apply classifier_advance_ok.
Qed.

(** X25. After a directory has been loaded, whatever sequence of the
    10m, 10p, Skip, Prev and Next buttons is pressed, and whether the
    renames succeed or fail, the cursor designates one of the loaded pairs
    (it is 0 when there is none). *)
Theorem classifier_cursor_stays_in_range
    (rename_file : Directory -> string -> string -> Res Directory)
    (files : list DirEntry) (directory_path : string) (st : State)
    (d : Directory) (bs : list Button) :
  Classifier.cursor_ok
    (state (press_all rename_file bs
              (Classifier.mkWorld
                 (load_image_directory (Some files) directory_path st) d))).
Proof.
  assert (H0 : Classifier.cursor_ok (state (Classifier.mkWorld
                 (load_image_directory (Some files) directory_path st) d))).
  { unfold Classifier.cursor_ok. simpl. lia. }
  revert H0. generalize (Classifier.mkWorld
    (load_image_directory (Some files) directory_path st) d).
  induction bs as [|b bs IH]; intros w Hok; simpl; [done|].
  apply IH. by apply press_cursor_ok.
Qed.

Lemma rename_card_pair_pairs rename_file (w : Classifier.World) ref g :
  card_pairs (state (rename_card_pair rename_file ref g w).1)
  = card_pairs (state w) \/
  exists p, card_pairs (state w) !! ref = Some p /\
    card_pairs (state (rename_card_pair rename_file ref g w).1)
    = <[ref := mkPair g (unique_id p) (extension p)
                 (Some (new_name g p "front")) (Some (new_name g p "back"))]>
        (card_pairs (state w)).
Proof.
  unfold rename_card_pair, bind, get, lift, try_except, rename, on_state,
    modify, ret, require. simpl.
  destruct (card_pairs (state w) !! ref) as [p|] eqn:Hp; [|by left]. simpl.
  destruct (source_dir (state w)); [|by left]. simpl.
  destruct (front p) as [f|]; [|by left]. simpl.
  destruct (back p) as [b|]; [|by left]. simpl.
  destruct (rename_file (dir w) f (new_name g p "front")) as [d1|e1];
    [|by left]. simpl.
  destruct (rename_file d1 b (new_name g p "back")) as [d2|e2]; [|by left].
  simpl. right. exists p. split; [done|].
  by destruct (advance_fields (incr_classified (set_card_pair ref
    (mkPair g (unique_id p) (extension p) (Some (new_name g p "front"))
            (Some (new_name g p "back"))) (state w)))) as [-> _].
Qed.

(** X26. No button changes which cards are in the session: the list of
    identifiers and extensions of the loaded pairs, in order, is the same
    after any sequence of button presses; classifying only rewrites the
    grade and the two file names of a pair. *)
Theorem buttons_keep_pair_identity
    (rename_file : Directory -> string -> string -> Res Directory)
    (bs : list Button) (w : Classifier.World) :
  (fun p => (unique_id p, extension p))
    <$> card_pairs (state (press_all rename_file bs w))
  = (fun p => (unique_id p, extension p)) <$> card_pairs (state w).
Proof.
  revert w. induction bs as [|b bs IH]; intros w; simpl; [done|].
  rewrite IH. clear IH.
  assert (Hc : forall g,
    (fun p => (unique_id p, extension p))
      <$> card_pairs (state (classify_current rename_file g w).1)
    = (fun p => (unique_id p, extension p)) <$> card_pairs (state w)).
  { intros g. unfold classify_current, bind, get, raise. simpl.
    destruct (py_norm _ _) as [ref|]; [|done].
    destruct (rename_card_pair_pairs rename_file w ref g) as [->|(p & Hp & ->)];
      [done|].
    rewrite list_fmap_insert. simpl.
    apply list_insert_id. by rewrite list_lookup_fmap, Hp. }
  destruct b; simpl; try apply Hc.
  - by destruct (advance_fields (state w)) as [-> _].
  - unfold prev_card, on_state, modify. simpl.
    by destruct (0 <? current_index (state w))%Z.
  - by destruct (advance_fields (state w)) as [-> _].
Qed.
